(** * Inventory management backend: ledger, transaction recorder, aggregates

    A shallow embedding of [src/main.py] (the FastAPI handlers) over the
    SQLite schema of [src/scripts/setup_database.py].

    Modelling conventions.
    - A table with [INTEGER PRIMARY KEY AUTOINCREMENT] is a finite map from
      rowid to row ([gmap Z row]) together with its [sqlite_sequence]
      counter.  The primary key is the map key, so it is unique by
      construction, as in the store.
    - Every handler opens a connection, runs its statements and closes the
      connection.  A handler is a function from the stored state to the
      stored state left behind and the outcome of the Python function: a
      returned value, a raised [HTTPException], or an exception nobody
      catches.  A statement that raises [sqlite3.IntegrityError] changes
      nothing, and what was committed before it stays.
    - [INTEGER] columns and Python [int] are [Z].  [REAL] columns and Python
      [float] are exact rationals [Q]: the binary rounding of IEEE doubles is
      outside the model, and equalities between amounts are [Qeq].
    - [CURRENT_TIMESTAMP] is read from the environment: handlers that insert
      a row take the clock reading [now] as an argument.
    - The handlers are modelled as Python functions: what FastAPI does with
      the returned dictionary (response-model validation, JSON encoding) is
      not part of the model. *)

From Stdlib Require Import ZArith QArith Qround Qabs Lia Lqa.
From stdpp Require Import gmap strings list sorting.

Close Scope Q_scope.
Local Open Scope string_scope.
Local Open Scope Z_scope.

(** ** Storage layer *)

Module Sql.

(** A table: its rows by rowid, and the largest rowid ever handed out
    (the table's entry in [sqlite_sequence]). *)
Record table (A : Type) := Table {
  rows : gmap Z A;
  seq : Z
}.
Arguments Table {A} _ _.
Arguments rows {A} _.
Arguments seq {A} _.

Definition empty_table {A} : table A := Table ∅ 0.

Definition max_rowid {A} (m : gmap Z A) : Z :=
  map_fold (λ k _ acc, Z.max k acc) 0 m.

(** AUTOINCREMENT: one more than the largest rowid that ever existed. *)
Definition next_rowid {A} (t : table A) : Z :=
  Z.max (seq t) (max_rowid (rows t)) + 1.

(** [INSERT INTO t ...] once the constraints are known to hold; the second
    component is [cursor.lastrowid]. *)
Definition insert_row {A} (r : A) (t : table A) : table A * Z :=
  let k := next_rowid t in (Table (<[k := r]> (rows t)) k, k).

(** [UPDATE t SET ... WHERE id = k]. *)
Definition update_row {A} (f : A → A) (k : Z) (t : table A) : table A :=
  Table (alter f k (rows t)) (seq t).

(** [DELETE FROM t WHERE id = k]. *)
Definition delete_row {A} (k : Z) (t : table A) : table A :=
  Table (delete k (rows t)) (seq t).

(** The rows of a full scan, with their rowids. *)
Definition scan {A} (t : table A) : list (Z * A) := map_to_list (rows t).

(** Some row holds [v] in the column [col]. *)
Definition taken {A} (col : A → string) (v : string) (t : table A) : bool :=
  bool_decide (v ∈ (col ∘ snd) <$> scan t).

(** Some row other than [k] holds [v] in the column [col]. *)
Definition taken_by_other {A} (col : A → string) (v : string) (k : Z)
    (t : table A) : bool :=
  bool_decide (v ∈ (col ∘ snd) <$> filter (λ p, p.1 ≠ k) (scan t)).

Definition add_up (l : list Q) : Q := foldr Qplus 0%Q l.

(** [SUM(x)] over the selected rows: NULL when there is none. *)
Definition sum (l : list Q) : option Q :=
  match l with
  | [] => None
  | _ => Some (add_up l)
  end.

End Sql.

Import Sql.

(** ** Outcomes of a handler *)

Inductive exception :=
  | IntegrityError (msg : string)
  | TypeError (msg : string).

Inductive outcome (A : Type) :=
  | Return (a : A)
  | HTTPException (status_code : Z) (detail : string)
  | Uncaught (e : exception).
Arguments Return {A} _.
Arguments HTTPException {A} _ _.
Arguments Uncaught {A} _.

Definition failed {A} (o : outcome A) : bool :=
  match o with Return _ => false | _ => true end.

(** The error kinds of the specification, as the HTTP layer shows them. *)
Definition ConflictError {A} (o : outcome A) : Prop :=
  ∃ detail, o = HTTPException 400 detail.
Definition NotFoundError {A} (o : outcome A) : Prop :=
  ∃ detail, o = HTTPException 404 detail.

(** ** Rows of the schema *)

Record user_row := UserRow {
  username : string;
  password : string;
  email : string;
  role : string;
  user_created_at : string
}.

Record location_row := LocationRow {
  loc_name : string;
  address : string;
  loc_created_at : string
}.

Record category_row := CategoryRow {
  cat_name : string;
  description : option string;
  cat_created_at : string
}.

Record item_row := ItemRow {
  name : string;
  sku : string;
  category_id : Z;
  quantity : Z;
  min_stock : Z;
  price : Q;
  location_id : Z;
  printer_id : option Z;
  status : string;
  created_at : string
}.

Record printer_row := PrinterRow {
  model : string;
  serial_number : string;
  pr_location_id : Z;
  pr_status : string;
  supplies : option string;
  pr_created_at : string
}.

Record transaction_row := TransactionRow {
  item_id : Z;
  tr_location_id : Z;
  transaction_type : string;
  tr_quantity : Z;
  price_per_unit : Q;
  total_amount : Q;
  payment_status : string;
  payment_date : option string;
  notes : option string;
  tr_created_at : string
}.

(** The stored state.  [stock_movements] is created by the set-up script and
    touched by no handler; it is left out. *)
Record database := Database {
  users : table user_row;
  locations : table location_row;
  categories : table category_row;
  inventory_items : table item_row;
  printers : table printer_row;
  transactions : table transaction_row
}.

Definition empty_db : database :=
  Database empty_table empty_table empty_table empty_table empty_table
    empty_table.

Definition set_users f db :=
  Database (f (users db)) (locations db) (categories db) (inventory_items db)
    (printers db) (transactions db).
Definition set_locations f db :=
  Database (users db) (f (locations db)) (categories db) (inventory_items db)
    (printers db) (transactions db).
Definition set_categories f db :=
  Database (users db) (locations db) (f (categories db)) (inventory_items db)
    (printers db) (transactions db).
Definition set_inventory_items f db :=
  Database (users db) (locations db) (categories db) (f (inventory_items db))
    (printers db) (transactions db).
Definition set_printers f db :=
  Database (users db) (locations db) (categories db) (inventory_items db)
    (f (printers db)) (transactions db).
Definition set_transactions f db :=
  Database (users db) (locations db) (categories db) (inventory_items db)
    (printers db) (f (transactions db)).

(** ** Request bodies (the pydantic models) *)

Module UserRegister.
Record t := Make {
  username : string; password : string; email : string; role : string
}.
End UserRegister.

Module CategoryCreate.
Record t := Make { name : string; description : option string }.
End CategoryCreate.

Module LocationCreate.
Record t := Make { name : string; address : string }.
End LocationCreate.

Module InventoryItemCreate.
Record t := Make {
  name : string;
  sku : string;
  category_id : Z;
  quantity : Z;
  min_stock : Z;
  price : Q;
  location_id : Z
}.
End InventoryItemCreate.

Module PrinterCreate.
Record t := Make {
  model : string;
  serial_number : string;
  location_id : Z;
  status : string;
  supplies : option string
}.
End PrinterCreate.

Module TransactionCreate.
Record t := Make {
  item_id : Z;
  location_id : Z;
  transaction_type : string;
  quantity : Z;
  price_per_unit : Q;
  payment_status : string;
  payment_date : option string;
  notes : option string
}.
End TransactionCreate.

(** ** Statements *)

(** What [cursor.execute] gives back: it ran, or it raised. *)
Inductive executed (A : Type) :=
  | Done (a : A)
  | Raise (e : exception).
Arguments Done {A} _.
Arguments Raise {A} _.

Definition unique_failed (column : string) : exception :=
  IntegrityError ("UNIQUE constraint failed: " +:+ column).

(** [INSERT INTO users (username, password, email, role) VALUES (?,?,?,?)];
    [username] and [email] are UNIQUE. *)
Definition insert_user (now : string) (u : UserRegister.t) (db : database)
    : executed (database * Z) :=
  if taken username (UserRegister.username u) (users db) then
    Raise (unique_failed "users.username")
  else if taken email (UserRegister.email u) (users db) then
    Raise (unique_failed "users.email")
  else
    let '(t, k) :=
      insert_row (UserRow (UserRegister.username u) (UserRegister.password u)
                    (UserRegister.email u) (UserRegister.role u) now)
        (users db) in
    Done (set_users (λ _, t) db, k).

(** [INSERT INTO categories (name, description) VALUES (?, ?)]. *)
Definition insert_category (now : string) (c : CategoryCreate.t)
    (db : database) : executed (database * Z) :=
  if taken cat_name (CategoryCreate.name c) (categories db) then
    Raise (unique_failed "categories.name")
  else
    let '(t, k) :=
      insert_row (CategoryRow (CategoryCreate.name c)
                    (CategoryCreate.description c) now) (categories db) in
    Done (set_categories (λ _, t) db, k).

(** [INSERT INTO locations (name, address) VALUES (?, ?)]. *)
Definition insert_location (now : string) (l : LocationCreate.t)
    (db : database) : executed (database * Z) :=
  if taken loc_name (LocationCreate.name l) (locations db) then
    Raise (unique_failed "locations.name")
  else
    let '(t, k) :=
      insert_row (LocationRow (LocationCreate.name l)
                    (LocationCreate.address l) now) (locations db) in
    Done (set_locations (λ _, t) db, k).

(** [UPDATE locations SET name = ?, address = ? WHERE id = ?]. *)
Definition update_location_row (l : LocationCreate.t) (k : Z) (db : database)
    : executed database :=
  if bool_decide (is_Some (rows (locations db) !! k))
     && taken_by_other loc_name (LocationCreate.name l) k (locations db) then
    Raise (unique_failed "locations.name")
  else
    Done (set_locations
            (update_row (λ r, LocationRow (LocationCreate.name l)
                                (LocationCreate.address l) (loc_created_at r))
               k) db).

(** The row an INSERT into [inventory_items] writes: the eight bound
    columns, [printer_id] NULL and [created_at] the clock reading. *)
Definition stored (i : InventoryItemCreate.t) (status now : string)
    : item_row :=
  ItemRow (InventoryItemCreate.name i) (InventoryItemCreate.sku i)
    (InventoryItemCreate.category_id i) (InventoryItemCreate.quantity i)
    (InventoryItemCreate.min_stock i) (InventoryItemCreate.price i)
    (InventoryItemCreate.location_id i) None status now.

(** [INSERT INTO inventory_items (name, sku, category_id, quantity,
    min_stock, price, location_id, status) VALUES (...)]; [sku] is UNIQUE. *)
Definition insert_inventory_item (now : string) (i : InventoryItemCreate.t)
    (status : string) (db : database) : executed (database * Z) :=
  if taken sku (InventoryItemCreate.sku i) (inventory_items db) then
    Raise (unique_failed "inventory_items.sku")
  else
    let '(t, k) := insert_row (stored i status now) (inventory_items db) in
    Done (set_inventory_items (λ _, t) db, k).

(** [UPDATE inventory_items SET name = ?, sku = ?, category_id = ?,
    quantity = ?, min_stock = ?, price = ?, location_id = ?, status = ?
    WHERE id = ?]. *)
Definition update_inventory_item_row (i : InventoryItemCreate.t)
    (status : string) (k : Z) (db : database) : executed database :=
  if bool_decide (is_Some (rows (inventory_items db) !! k))
     && taken_by_other sku (InventoryItemCreate.sku i) k (inventory_items db)
  then Raise (unique_failed "inventory_items.sku")
  else
    Done (set_inventory_items
            (update_row
               (λ r, ItemRow (InventoryItemCreate.name i)
                       (InventoryItemCreate.sku i)
                       (InventoryItemCreate.category_id i)
                       (InventoryItemCreate.quantity i)
                       (InventoryItemCreate.min_stock i)
                       (InventoryItemCreate.price i)
                       (InventoryItemCreate.location_id i)
                       (printer_id r) status (created_at r))
               k) db).

(** [SET quantity = quantity - ?] on one row: every other column stays. *)
Definition sold (q : Z) (r : item_row) : item_row :=
  ItemRow (name r) (sku r) (category_id r) (quantity r - q) (min_stock r)
    (price r) (location_id r) (printer_id r) (status r) (created_at r).

(** [UPDATE inventory_items SET quantity = quantity - ? WHERE id = ?]. *)
Definition decrement_quantity (q : Z) (k : Z) (db : database) : database :=
  set_inventory_items (update_row (sold q) k) db.

(** [INSERT INTO printers (model, serial_number, location_id, status,
    supplies) VALUES (...)]; [serial_number] is UNIQUE. *)
Definition insert_printer (now : string) (p : PrinterCreate.t) (db : database)
    : executed (database * Z) :=
  if taken serial_number (PrinterCreate.serial_number p) (printers db) then
    Raise (unique_failed "printers.serial_number")
  else
    let '(t, k) :=
      insert_row
        (PrinterRow (PrinterCreate.model p) (PrinterCreate.serial_number p)
           (PrinterCreate.location_id p) (PrinterCreate.status p)
           (PrinterCreate.supplies p) now) (printers db) in
    Done (set_printers (λ _, t) db, k).

(** [UPDATE printers SET model = ?, serial_number = ?, location_id = ?,
    status = ?, supplies = ? WHERE id = ?]. *)
Definition update_printer_row (p : PrinterCreate.t) (k : Z) (db : database)
    : executed database :=
  if bool_decide (is_Some (rows (printers db) !! k))
     && taken_by_other serial_number (PrinterCreate.serial_number p) k
          (printers db)
  then Raise (unique_failed "printers.serial_number")
  else
    Done (set_printers
            (update_row
               (λ r, PrinterRow (PrinterCreate.model p)
                       (PrinterCreate.serial_number p)
                       (PrinterCreate.location_id p) (PrinterCreate.status p)
                       (PrinterCreate.supplies p) (pr_created_at r))
               k) db).

(** [INSERT INTO transactions (item_id, location_id, transaction_type,
    quantity, price_per_unit, total_amount, payment_status, payment_date,
    notes) VALUES (...)]: no UNIQUE column, the foreign keys are not
    enforced (the connection never turns [PRAGMA foreign_keys] on). *)
Definition insert_transaction (now : string) (t : TransactionCreate.t)
    (total_amount : Q) (db : database) : database * Z :=
  let '(tb, k) :=
    insert_row
      (TransactionRow (TransactionCreate.item_id t)
         (TransactionCreate.location_id t)
         (TransactionCreate.transaction_type t) (TransactionCreate.quantity t)
         (TransactionCreate.price_per_unit t) total_amount
         (TransactionCreate.payment_status t)
         (TransactionCreate.payment_date t) (TransactionCreate.notes t) now)
      (transactions db) in
  (set_transactions (λ _, tb) db, k).

(** ** Queries *)

(** A row of [SELECT ii.*, c.name AS category_name, l.name AS location_name,
    (ii.quantity * ii.price) AS total_price FROM inventory_items ii
    LEFT JOIN categories c ... LEFT JOIN locations l ...].  Both joins are on
    a primary key, so each item gives one row, with NULL names when the
    reference dangles.  The low-stock report names the product
    [total_value]. *)
Record item_dict := ItemDict {
  id : Z;
  item : item_row;
  category_name : option string;
  location_name : option string;
  total_price : Q
}.

Definition join_item (db : database) (p : Z * item_row) : item_dict :=
  ItemDict p.1 p.2
    (cat_name <$> rows (categories db) !! category_id p.2)
    (loc_name <$> rows (locations db) !! location_id p.2)
    (inject_Z (quantity p.2) * price p.2)%Q.

(** [... WHERE ii.id = ?] followed by [fetchone()]. *)
Definition select_item (k : Z) (db : database) : option item_dict :=
  (λ r, join_item db (k, r)) <$> rows (inventory_items db) !! k.

(** A row of [SELECT t.*, ii.name AS item_name, l.name AS location_name FROM
    transactions t LEFT JOIN inventory_items ii ... LEFT JOIN locations l]. *)
Record transaction_dict := TransactionDict {
  tr_id : Z;
  transaction : transaction_row;
  tr_item_name : option string;
  tr_location_name : option string
}.

Definition select_transaction (k : Z) (db : database)
    : option transaction_dict :=
  (λ t, TransactionDict k t
          (name <$> rows (inventory_items db) !! item_id t)
          (loc_name <$> rows (locations db) !! tr_location_id t))
    <$> rows (transactions db) !! k.

(** A row of [SELECT p.*, l.name AS location_name FROM printers p LEFT JOIN
    locations l ON p.location_id = l.id]. *)
Record printer_dict := PrinterDict {
  pr_id : Z;
  printer : printer_row;
  pr_location_name : option string
}.

Definition select_printer (k : Z) (db : database) : option printer_dict :=
  (λ p, PrinterDict k p (loc_name <$> rows (locations db) !! pr_location_id p))
    <$> rows (printers db) !! k.

(** [SELECT COUNT( * ) FROM inventory_items WHERE location_id = ?]. *)
Definition count_items_at (k : Z) (db : database) : Z :=
  Z.of_nat (length (filter (λ p, location_id p.2 = k)
                      (scan (inventory_items db)))).

(** [SELECT COUNT( * ) FROM printers WHERE location_id = ?]. *)
Definition count_printers_at (k : Z) (db : database) : Z :=
  Z.of_nat (length (filter (λ p, pr_location_id p.2 = k)
                      (scan (printers db)))).

(** ** Responses built by hand in the handlers *)

Record UserResponse := {
  ur_id : Z; ur_username : string; ur_email : string; ur_role : string
}.

Record LocationResponse := {
  lr_id : Z; lr_name : string; lr_address : string;
  lr_items : Z; lr_printers : Z
}.

Record message := Message { message_text : string }.

(** [dict(None)] and [None["id"]], should [fetchone()] find nothing. *)
Definition dict_of_none : exception :=
  TypeError "'NoneType' object is not iterable".
Definition subscript_of_none : exception :=
  TypeError "'NoneType' object is not subscriptable".

(** ** Handlers *)

(** [POST /api/auth/register]. *)
Definition register (now : string) (user : UserRegister.t) (db : database)
    : database * outcome UserResponse :=
  match insert_user now user db with
  | Done (db1, user_id) =>
      match rows (users db1) !! user_id with
      | Some new_user =>
          (db1, Return {| ur_id := user_id; ur_username := username new_user;
                          ur_email := email new_user;
                          ur_role := role new_user |})
      | None => (db1, Uncaught subscript_of_none)
      end
  | Raise (IntegrityError _) =>
      (db, HTTPException 400 "Username or email already exists")
  | Raise e => (db, Uncaught e)
  end.

(** [POST /api/categories]. *)
Definition create_category (now : string) (category : CategoryCreate.t)
    (db : database) : database * outcome (Z * category_row) :=
  match insert_category now category db with
  | Done (db1, cat_id) =>
      match rows (categories db1) !! cat_id with
      | Some new_cat => (db1, Return (cat_id, new_cat))
      | None => (db1, Uncaught dict_of_none)
      end
  | Raise (IntegrityError _) =>
      (db, HTTPException 400 "Category already exists")
  | Raise e => (db, Uncaught e)
  end.

(** [POST /api/inventory]. *)
Definition create_inventory_item (now : string) (item : InventoryItemCreate.t)
    (db : database) : database * outcome item_dict :=
  let status :=
    if InventoryItemCreate.quantity item <? InventoryItemCreate.min_stock item
    then "Low Stock" else "In Stock" in
  match insert_inventory_item now item status db with
  | Done (db1, item_id) =>
      match select_item item_id db1 with
      | Some new_item => (db1, Return new_item)
      | None => (db1, Uncaught dict_of_none)
      end
  | Raise (IntegrityError _) => (db, HTTPException 400 "SKU already exists")
  | Raise e => (db, Uncaught e)
  end.

(** [PUT /api/inventory/{item_id}].  The UPDATE runs outside any [try]: an
    [IntegrityError] it raises is not caught. *)
Definition update_inventory_item (item_id : Z) (item : InventoryItemCreate.t)
    (db : database) : database * outcome item_dict :=
  let status :=
    if InventoryItemCreate.quantity item <? InventoryItemCreate.min_stock item
    then "Low Stock" else "In Stock" in
  match update_inventory_item_row item status item_id db with
  | Done db1 =>
      match select_item item_id db1 with
      | None => (db1, HTTPException 404 "Item not found")
      | Some updated_item => (db1, Return updated_item)
      end
  | Raise e => (db, Uncaught e)
  end.

(** [DELETE /api/inventory/{item_id}]. *)
Definition delete_inventory_item (item_id : Z) (db : database)
    : database * outcome message :=
  (set_inventory_items (delete_row item_id) db,
   Return (Message "Item deleted successfully")).

(** [POST /api/locations]. *)
Definition create_location (now : string) (location : LocationCreate.t)
    (db : database) : database * outcome LocationResponse :=
  match insert_location now location db with
  | Done (db1, location_id) =>
      match rows (locations db1) !! location_id with
      | Some new_location =>
          (db1, Return {| lr_id := location_id;
                          lr_name := loc_name new_location;
                          lr_address := address new_location;
                          lr_items := 0; lr_printers := 0 |})
      | None => (db1, Uncaught subscript_of_none)
      end
  | Raise (IntegrityError _) =>
      (db, HTTPException 400 "Location already exists")
  | Raise e => (db, Uncaught e)
  end.

(** [PUT /api/locations/{location_id}]. *)
Definition update_location (location_id : Z) (location : LocationCreate.t)
    (db : database) : database * outcome LocationResponse :=
  match update_location_row location location_id db with
  | Done db1 =>
      match rows (locations db1) !! location_id with
      | None => (db1, HTTPException 404 "Location not found")
      | Some updated_loc =>
          (db1, Return {| lr_id := location_id;
                          lr_name := loc_name updated_loc;
                          lr_address := address updated_loc;
                          lr_items := count_items_at location_id db1;
                          lr_printers := count_printers_at location_id db1 |})
      end
  | Raise e => (db, Uncaught e)
  end.

(** [DELETE /api/locations/{location_id}]. *)
Definition delete_location (location_id : Z) (db : database)
    : database * outcome message :=
  (set_locations (delete_row location_id) db,
   Return (Message "Location deleted successfully")).

(** [POST /api/printers]. *)
Definition create_printer (now : string) (printer : PrinterCreate.t)
    (db : database) : database * outcome printer_dict :=
  match insert_printer now printer db with
  | Done (db1, printer_id) =>
      match select_printer printer_id db1 with
      | Some new_printer => (db1, Return new_printer)
      | None => (db1, Uncaught dict_of_none)
      end
  | Raise (IntegrityError _) =>
      (db, HTTPException 400 "Serial number already exists")
  | Raise e => (db, Uncaught e)
  end.

(** [PUT /api/printers/{printer_id}]. *)
Definition update_printer (printer_id : Z) (printer : PrinterCreate.t)
    (db : database) : database * outcome printer_dict :=
  match update_printer_row printer printer_id db with
  | Done db1 =>
      match select_printer printer_id db1 with
      | None => (db1, HTTPException 404 "Printer not found")
      | Some updated_printer => (db1, Return updated_printer)
      end
  | Raise e => (db, Uncaught e)
  end.

(** [DELETE /api/printers/{printer_id}]. *)
Definition delete_printer (printer_id : Z) (db : database)
    : database * outcome message :=
  (set_printers (delete_row printer_id) db,
   Return (Message "Printer deleted successfully")).

(** [POST /api/transactions].  The row is inserted and committed first; a
    sale then decrements the item's quantity in a second statement. *)
Definition create_transaction (now : string)
    (transaction : TransactionCreate.t) (db : database)
    : database * outcome transaction_dict :=
  let total_amount :=
    (inject_Z (TransactionCreate.quantity transaction)
     * TransactionCreate.price_per_unit transaction)%Q in
  let '(db1, trans_id) := insert_transaction now transaction total_amount db in
  let db2 :=
    if String.eqb (TransactionCreate.transaction_type transaction) "sale"
    then decrement_quantity (TransactionCreate.quantity transaction)
           (TransactionCreate.item_id transaction) db1
    else db1 in
  match select_transaction trans_id db2 with
  | Some new_trans => (db2, Return new_trans)
  | None => (db2, Uncaught dict_of_none)
  end.

(** ** Aggregates *)

Definition round_half_even (q : Q) : Z :=
  let f := Qfloor q in
  match (q - inject_Z f ?= 1 # 2)%Q with
  | Lt => f
  | Gt => f + 1
  | Eq => if Z.even f then f else f + 1
  end.

(** Python's [round(x, ndigits)]: the nearest multiple of [10 ** -ndigits],
    ties to the even one. *)
Definition round (x : Q) (ndigits : nat) : Q :=
  let scale := inject_Z (10 ^ Z.of_nat ndigits) in
  (inject_Z (round_half_even (x * scale)) / scale)%Q.

(** [result["total"] if result["total"] else 0]: NULL and zero both give 0. *)
Definition total_or_zero (total : option Q) : Q :=
  match total with
  | Some v => if Qeq_bool v 0 then 0%Q else v
  | None => 0%Q
  end.

Definition amounts (l : list (Z * transaction_row)) : list Q :=
  (total_amount ∘ snd) <$> l.

Definition with_status (s : string) (l : list (Z * transaction_row))
    : list (Z * transaction_row) :=
  filter (λ p, payment_status p.2 = s) l.

(** A row of the per-location breakdown. *)
Record location_totals := LocationTotals {
  location : option string;
  pending : option Q;
  paid : option Q;
  total : option Q
}.

(** [SUM(CASE WHEN t.payment_status = s THEN t.total_amount ELSE 0 END)]. *)
Definition case_amounts (s : string) (l : list (Z * transaction_row))
    : list Q :=
  (λ p, if bool_decide (payment_status p.2 = s) then total_amount p.2
        else 0%Q) <$> l.

(** [... FROM transactions t LEFT JOIN locations l ON t.location_id = l.id
    GROUP BY l.name]: one row per location name met, NULL for dangling
    references, with the sums as SQL returns them.  SQL leaves the order of
    the groups open; here it is the order of first occurrence. *)
Definition by_location (db : database) : list location_totals :=
  let named :=
    (λ p, (loc_name <$> rows (locations db) !! tr_location_id p.2, p))
      <$> scan (transactions db) in
  (λ g, let grp := snd <$> filter (λ np, np.1 = g) named in
        LocationTotals g (Sql.sum (case_amounts "Pending" grp))
          (Sql.sum (case_amounts "Paid" grp)) (Sql.sum (amounts grp)))
    <$> remove_dups (fst <$> named).



(** [ORDER BY ii.quantity ASC]. *)
Definition by_quantity (a b : item_dict) : Prop :=
  quantity (item a) ≤ quantity (item b).

#[global] Instance by_quantity_dec : RelDecision by_quantity :=
  λ a b, decide (quantity (item a) ≤ quantity (item b)).

(** [GET /api/reports/low-stock]: [WHERE ii.quantity < ii.min_stock ORDER BY
    ii.quantity ASC]. *)
Definition get_low_stock_report (db : database) : list item_dict :=
  merge_sort by_quantity
    (join_item db
       <$> filter (λ p, quantity p.2 < min_stock p.2)
             (scan (inventory_items db))).

(** ** Reading handlers *)

Module UserLogin.
Record t := Make { username : string; password : string }.
End UserLogin.

Record LoginResponse := { success : bool; user : UserResponse }.

(** [SELECT * FROM users WHERE username = ? AND password = ?] followed by
    [fetchone()]. *)
Definition select_user (name password' : string) (db : database)
    : option (Z * user_row) :=
  head (filter (λ p, username p.2 = name ∧ password p.2 = password')
          (scan (users db))).

(** [POST /api/auth/login]. *)
Definition login (credentials : UserLogin.t) (db : database)
    : outcome LoginResponse :=
  match select_user (UserLogin.username credentials)
          (UserLogin.password credentials) db with
  | None => HTTPException 401 "Invalid credentials"
  | Some (k, u) =>
      Return {| success := true;
                user := {| ur_id := k; ur_username := username u;
                           ur_email := email u; ur_role := role u |} |}
  end.

(** [ORDER BY created_at DESC]: the stamps are the texts CURRENT_TIMESTAMP
    wrote, compared byte by byte. *)
Definition newest_first {A} (stamp : A → string) (a b : A) : Prop :=
  String.leb (stamp b) (stamp a) = true.

#[global] Instance newest_first_dec {A} (stamp : A → string)
    : RelDecision (newest_first stamp) :=
  λ a b, decide (String.leb (stamp b) (stamp a) = true).

(** [ORDER BY name]. *)
Definition by_text {A} (col : A → string) (a b : A) : Prop :=
  String.leb (col a) (col b) = true.

#[global] Instance by_text_dec {A} (col : A → string)
    : RelDecision (by_text col) :=
  λ a b, decide (String.leb (col a) (col b) = true).

(** [SELECT COUNT( * )]. *)
Definition count {A} (l : list A) : Z := Z.of_nat (length l).

(** [SUM(x)] over an INTEGER column. *)
Definition sum_int (l : list Z) : option Z :=
  match l with
  | [] => None
  | _ => Some (foldr Z.add 0 l)
  end.

Module DashboardMetrics.
Record t := Make {
  total_items : Z;
  low_stock_count : Z;
  total_locations : Z;
  total_printers : Z;
  total_spent : Q;
  pending_payments : Q;
  paid_amount : Q
}.
End DashboardMetrics.

(** [GET /api/dashboard/metrics]. *)
Definition get_dashboard_metrics (db : database) : DashboardMetrics.t :=
  let total_items := count (scan (inventory_items db)) in
  let low_stock :=
    count (filter (λ p, quantity p.2 < min_stock p.2)
             (scan (inventory_items db))) in
  let total_locations := count (scan (locations db)) in
  let total_printers := count (scan (printers db)) in
  let total_spent :=
    total_or_zero (Sql.sum (amounts (scan (transactions db)))) in
  let pending_payments :=
    total_or_zero
      (Sql.sum (amounts (with_status "Pending" (scan (transactions db))))) in
  DashboardMetrics.Make total_items low_stock total_locations total_printers
    (round total_spent 2) (round pending_payments 2)
    (round (total_spent - pending_payments) 2).

(** [GET /api/categories]. *)
Definition get_categories (db : database) : list (Z * category_row) :=
  merge_sort (by_text (cat_name ∘ snd)) (scan (categories db)).

(** A row of [get_inventory]: the joined item and, through
    [LEFT JOIN printers p ON ii.printer_id = p.id], the printer's model. *)
Record inventory_dict := InventoryDict {
  listed : item_dict;
  printer_name : option string
}.

Definition join_printer (db : database) (p : Z * item_row) : inventory_dict :=
  InventoryDict (join_item db p)
    (model <$> (printer_id p.2 ≫= λ k, rows (printers db) !! k)).

(** [GET /api/inventory]. *)
Definition get_inventory (db : database) : list inventory_dict :=
  merge_sort (newest_first (created_at ∘ item ∘ listed))
    (join_printer db <$> scan (inventory_items db)).


Definition join_location (db : database) (p : Z * printer_row)
    : printer_dict :=
  PrinterDict p.1 p.2 (loc_name <$> rows (locations db) !! pr_location_id p.2).

(** [GET /api/printers]. *)
Definition get_printers (db : database) : list printer_dict :=
  merge_sort (newest_first (pr_created_at ∘ printer))
    (join_location db <$> scan (printers db)).




Module ValueByCategory.
Record t := Make {
  category : option string;
  total_value : option Q;
  total_quantity : option Z
}.
End ValueByCategory.

Module ValueByLocation.
Record t := Make {
  location : option string;
  total_value : option Q;
  item_count : Z
}.
End ValueByLocation.



Module InventoryValueReport.
Record t := Make {
  by_category : list ValueByCategory.t;
  by_location : list ValueByLocation.t
}.
End InventoryValueReport.


(** A row of the monthly trend and a row of the category distribution. *)
Record trend_row := TrendRow {
  month : option string;
  inventory : option Z;
  items : Z
}.

Record category_count := CategoryCount {
  counted : string;
  items_counted : Z
}.

(** [ORDER BY month DESC]: NULL sorts below every text, so it comes last. *)
Definition latest_month (a b : trend_row) : Prop :=
  match month a, month b with
  | _, None => True
  | None, Some _ => False
  | Some x, Some y => String.leb y x = true
  end.

#[global] Instance latest_month_dec : RelDecision latest_month.
Proof.
  intros a b. unfold latest_month.
  destruct (month a), (month b); apply _.
Defined.

Record DashboardCharts := {
  inventory_trend : list trend_row;
  category_distribution : list category_count
}.

Section charts.

(** [strftime('%Y-%m', created_at)] is SQLite's: the year and month of a
    stamp it can read as a date, NULL otherwise. *)
Variable strftime_month : string → option string.

(** [SELECT strftime('%Y-%m', created_at) AS month, SUM(quantity),
    COUNT( * ) FROM inventory_items GROUP BY strftime('%Y-%m', created_at)
    ORDER BY month DESC LIMIT 6]. *)
Definition monthly_trend (db : database) : list trend_row :=
  let dated :=
    (λ p, (strftime_month (created_at p.2), p))
      <$> scan (inventory_items db) in
  take 6
    (merge_sort latest_month
       ((λ g, let grp := snd <$> filter (λ np, np.1 = g) dated in
              TrendRow g (sum_int ((quantity ∘ snd) <$> grp)) (count grp))
          <$> remove_dups (fst <$> dated))).

(** [SELECT c.name, COUNT(ii.id) FROM categories c LEFT JOIN inventory_items
    ii ON c.id = ii.category_id GROUP BY c.name]: a category without items
    gives one row of the join, with a NULL [ii.id] that COUNT skips. *)
Definition categories_with_items (db : database)
    : list (string * option Z) :=
  scan (categories db) ≫= λ c,
    match filter (λ i, category_id i.2 = c.1) (scan (inventory_items db)) with
    | [] => [(cat_name c.2, None)]
    | matched => (λ i, (cat_name c.2, Some i.1)) <$> matched
    end.

Definition distribution (db : database) : list category_count :=
  let joined := categories_with_items db in
  (λ g, CategoryCount g
          (count (filter (λ np, np.1 = g ∧ is_Some np.2) joined)))
    <$> remove_dups (fst <$> joined).

(** [GET /api/dashboard/charts]. *)
Definition get_dashboard_charts (db : database) : DashboardCharts :=
  {| inventory_trend := monthly_trend db;
     category_distribution := distribution db |}.

End charts.

(** ** Requests that write, and the states they reach *)

Inductive request :=
  | Register (now : string) (user : UserRegister.t)
  | CreateCategory (now : string) (category : CategoryCreate.t)
  | CreateInventoryItem (now : string) (item : InventoryItemCreate.t)
  | UpdateInventoryItem (item_id : Z) (item : InventoryItemCreate.t)
  | DeleteInventoryItem (item_id : Z)
  | CreateLocation (now : string) (location : LocationCreate.t)
  | UpdateLocation (location_id : Z) (location : LocationCreate.t)
  | DeleteLocation (location_id : Z)
  | CreatePrinter (now : string) (printer : PrinterCreate.t)
  | UpdatePrinter (printer_id : Z) (printer : PrinterCreate.t)
  | DeletePrinter (printer_id : Z)
  | CreateTransaction (now : string) (transaction : TransactionCreate.t).

Definition observe {A} (p : database * outcome A) : database * bool :=
  (p.1, failed p.2).

(** The state a request leaves, and whether the handler raised. *)
Definition serve (r : request) (db : database) : database * bool :=
  match r with
  | Register now user => observe (register now user db)
  | CreateCategory now c => observe (create_category now c db)
  | CreateInventoryItem now i =>
      observe (create_inventory_item now i db)
  | UpdateInventoryItem k i =>
      observe (update_inventory_item k i db)
  | DeleteInventoryItem k => observe (delete_inventory_item k db)
  | CreateLocation now l => observe (create_location now l db)
  | UpdateLocation k l => observe (update_location k l db)
  | DeleteLocation k => observe (delete_location k db)
  | CreatePrinter now p => observe (create_printer now p db)
  | UpdatePrinter k p => observe (update_printer k p db)
  | DeletePrinter k => observe (delete_printer k db)
  | CreateTransaction now t => observe (create_transaction now t db)
  end.

Inductive reachable : database → Prop :=
  | reachable_empty : reachable empty_db
  | reachable_serve r db : reachable db → reachable (serve r db).1.

(** Serving requests one after the other. *)
Definition run (rs : list request) (db : database) : database :=
  foldl (λ d r, (serve r d).1) db rs.

(** ** The set-up script *)

(** The tables are created with [CREATE TABLE IF NOT EXISTS]; in the model
    they are always there.  The seed rows follow. *)
Definition seed_users : list UserRegister.t :=
  [UserRegister.Make "admin" "admin123" "admin@ims.com" "Admin";
   UserRegister.Make "manager" "manager123" "manager@ims.com" "Manager"].

Definition seed_categories : list CategoryCreate.t :=
  [CategoryCreate.Make "Toner" (Some "Toner cartridges for printers");
   CategoryCreate.Make "Paper" (Some "Printing paper and materials");
   CategoryCreate.Make "Ink" (Some "Ink cartridges");
   CategoryCreate.Make "Supplies" (Some "General office supplies")].

Definition seed_locations : list LocationCreate.t :=
  [LocationCreate.Make "Main School" "123 Education Street, District A";
   LocationCreate.Make "Branch School A" "456 Learning Avenue, District B";
   LocationCreate.Make "Branch School B"
     "789 Knowledge Boulevard, District C";
   LocationCreate.Make "Central Office" "321 Administration Lane, Downtown"].

Definition seed_printers : list PrinterCreate.t :=
  [PrinterCreate.Make "HP LaserJet Pro MFP M428fdw" "SN-HP-001" 1 "Active"
     (Some "Toner, Paper");
   PrinterCreate.Make "Canon imagePRESS C165" "SN-CN-001" 2 "Active"
     (Some "Toner, Ink");
   PrinterCreate.Make "Xerox VersaLink C405" "SN-XR-001" 3 "Maintenance"
     (Some "Toner");
   PrinterCreate.Make "Ricoh MP C3004ex" "SN-RC-001" 1 "Active"
     (Some "Toner, Paper, Ink");
   PrinterCreate.Make "Brother MFC-L8900CDW" "SN-BR-001" 4 "Active"
     (Some "Toner, Paper");
   PrinterCreate.Make "Epson WorkForce Pro WF-C5790" "SN-EP-001" 2 "Active"
     (Some "Ink, Paper")].

(** An item of the seed: the seven columns of a request, then [printer_id]
    and [status] as the script writes them. *)
Definition seed_items : list (InventoryItemCreate.t * Z * string) :=
  [(InventoryItemCreate.Make "Toner Cartridge Black HP 305A" "TCB-001" 1 150
      50 (4599 # 100) 1, 1, "In Stock");
   (InventoryItemCreate.Make "Toner Cartridge Color Canon 046" "TCC-001" 1 45
      50 (5599 # 100) 2, 2, "Low Stock");
   (InventoryItemCreate.Make "Paper A4 500 sheets Premium" "PA4-500" 2 500
      200 (599 # 100) 1, 1, "In Stock");
   (InventoryItemCreate.Make "Ink Cartridge Epson 603XL" "IC-001" 3 20 30
      (2550 # 100) 3, 3, "Low Stock");
   (InventoryItemCreate.Make "Toner Cartridge Brother TN-2420" "TCB-002" 1 80
      40 (4299 # 100) 4, 5, "In Stock");
   (InventoryItemCreate.Make "Paper A4 80gsm 2500 sheets" "PA4-2500" 2 300
      150 (2299 # 100) 1, 4, "In Stock");
   (InventoryItemCreate.Make "Ink Cartridge HP 302XL Black" "IC-002" 3 35 25
      (2999 # 100) 2, 6, "In Stock");
   (InventoryItemCreate.Make "Toner Cartridge Xerox 106R03623" "TCX-001" 1 15
      30 (6899 # 100) 3, 3, "Low Stock")].

(** A transaction of the seed, with the [total_amount] the script writes. *)
Definition seed_transactions : list (TransactionCreate.t * Q) :=
  [(TransactionCreate.Make 1 1 "sale" 50 (4599 # 100) "Pending" None
      (Some "Delivered to Main School"), 229950 # 100);
   (TransactionCreate.Make 2 2 "sale" 30 (5599 # 100) "Pending" None
      (Some "Delivered to Branch A"), 167970 # 100);
   (TransactionCreate.Make 3 1 "sale" 100 (599 # 100) "Paid"
      (Some "2024-01-15") (Some "Bulk order for Main School"), 59900 # 100);
   (TransactionCreate.Make 4 3 "sale" 15 (2550 # 100) "Pending" None
      (Some "Emergency order"), 38250 # 100);
   (TransactionCreate.Make 5 4 "sale" 40 (4299 # 100) "Pending" None
      (Some "Monthly supplies"), 171960 # 100)]%Q.

(** [INSERT INTO inventory_items (name, sku, category_id, quantity,
    min_stock, price, location_id, printer_id, status) VALUES (...)]. *)
Definition insert_seed_item (now : string)
    (s : InventoryItemCreate.t * Z * string) (db : database)
    : executed (database * Z) :=
  let '(i, printer, status) := s in
  if taken sku (InventoryItemCreate.sku i) (inventory_items db) then
    Raise (unique_failed "inventory_items.sku")
  else
    let '(t, k) :=
      insert_row
        (ItemRow (InventoryItemCreate.name i) (InventoryItemCreate.sku i)
           (InventoryItemCreate.category_id i) (InventoryItemCreate.quantity i)
           (InventoryItemCreate.min_stock i) (InventoryItemCreate.price i)
           (InventoryItemCreate.location_id i) (Some printer) status now)
        (inventory_items db) in
    Done (set_inventory_items (λ _, t) db, k).

(** A statement of the script: given the clock reading, it runs on the
    connection or raises. *)
Definition statement : Type := string → database → executed database.

Definition forget_rowid (r : executed (database * Z)) : executed database :=
  match r with
  | Done (db, _) => Done db
  | Raise e => Raise e
  end.

(** The INSERTs of the script, in its order. *)
Definition seed_statements : list statement :=
  ((λ u now db, forget_rowid (insert_user now u db)) <$> seed_users)
  ++ ((λ c now db, forget_rowid (insert_category now c db))
        <$> seed_categories)
  ++ ((λ l now db, forget_rowid (insert_location now l db))
        <$> seed_locations)
  ++ ((λ p now db, forget_rowid (insert_printer now p db)) <$> seed_printers)
  ++ ((λ s now db, forget_rowid (insert_seed_item now s db)) <$> seed_items)
  ++ ((λ t now db, Done (insert_transaction now t.1 t.2 db).1)
        <$> seed_transactions).

(** The statements one after the other on one connection, the [n]-th at the
    clock reading [clock n]; the first to raise ends the run. *)
Fixpoint execute_all (clock : nat → string) (n : nat) (stmts : list statement)
    (db : database) : executed database :=
  match stmts with
  | [] => Done db
  | stmt :: rest =>
      match stmt (clock n) db with
      | Done db1 => execute_all clock (S n) rest db1
      | Raise e => Raise e
      end
  end.

(** [setup_database()]: the one [commit()] comes after the last INSERT, so a
    run that raises leaves, once the connection is closed, what it found. *)
Definition setup_database (clock : nat → string) (db : database) : database :=
  match execute_all clock 0 seed_statements db with
  | Done seeded => seeded
  | Raise _ => db
  end.

(** ** Invariants of the stored state *)

(** No two rows agree on the column [col]. *)
Definition unique_on {A} (col : A → string) (t : table A) : Prop :=
  ∀ k1 k2 r1 r2,
    rows t !! k1 = Some r1 → rows t !! k2 = Some r2 →
    col r1 = col r2 → k1 = k2.

(** The UNIQUE columns of the schema. *)
Definition unique_keys (db : database) : Prop :=
  unique_on username (users db) ∧ unique_on email (users db)
  ∧ unique_on loc_name (locations db) ∧ unique_on cat_name (categories db)
  ∧ unique_on sku (inventory_items db)
  ∧ unique_on serial_number (printers db).

(** Every rowid in use is positive and was handed out by the sequence. *)
Definition issued {A} (t : table A) : Prop :=
  0 ≤ seq t ∧ ∀ k r, rows t !! k = Some r → 0 < k ≤ seq t.

Definition all_issued (db : database) : Prop :=
  issued (users db) ∧ issued (locations db) ∧ issued (categories db)
  ∧ issued (inventory_items db) ∧ issued (printers db)
  ∧ issued (transactions db).

(** The six sequence counters. *)
Definition sequences (db : database) : list Z :=
  [seq (users db); seq (locations db); seq (categories db);
   seq (inventory_items db); seq (printers db); seq (transactions db)].


(** The number of items that carry the category id [k]. *)
Definition items_in (db : database) (k : Z) : nat :=
  length (filter (λ i : Z * item_row, category_id i.2 = k)
            (scan (inventory_items db))).

(** The same values are taken in the column [col] of both tables. *)
Definition same_taken {A} (col : A → string) (t1 t2 : table A) : Prop :=
  ∀ v, taken col v t1 = taken col v t2.

(** Two states that agree on which unique keys are taken. *)
Definition same_keys (db1 db2 : database) : Prop :=
  same_taken username (users db1) (users db2)
  ∧ same_taken email (users db1) (users db2)
  ∧ same_taken loc_name (locations db1) (locations db2)
  ∧ same_taken cat_name (categories db1) (categories db2)
  ∧ same_taken sku (inventory_items db1) (inventory_items db2)
  ∧ same_taken serial_number (printers db1) (printers db2).

(** The number of rows of each table. *)
Definition sizes (db : database) : list nat :=
  [length (scan (users db)); length (scan (categories db));
   length (scan (locations db)); length (scan (printers db));
   length (scan (inventory_items db)); length (scan (transactions db))].

(** Whether the statement runs, and which keys are taken after it, depends
    on the keys taken before it and not on the clock. *)
Definition key_driven (stmt : statement) : Prop :=
  ∀ now1 now2 db1 db2,
    same_keys db1 db2 →
    match stmt now1 db1, stmt now2 db2 with
    | Done a, Done b => same_keys a b
    | Raise _, Raise _ => True
    | _, _ => False
    end.

(** The statement deletes no user. *)
Definition keeps_users (stmt : statement) : Prop :=
  ∀ now db db1 v,
    stmt now db = Done db1 →
    taken username v (users db) = true → taken username v (users db1) = true.

(** When the statement runs, the tables grow by [e] rows. *)
Definition adds (stmt : statement) (e : list nat) : Prop :=
  ∀ now db db1,
    stmt now db = Done db1 → sizes db1 = zip_with Nat.add (sizes db) e.

(** One row per statement of the seed, table by table. *)
Definition seed_increments : list (list nat) :=
  replicate 2 [1; 0; 0; 0; 0; 0]%nat ++ replicate 4 [0; 1; 0; 0; 0; 0]%nat
  ++ replicate 4 [0; 0; 1; 0; 0; 0]%nat ++ replicate 6 [0; 0; 0; 1; 0; 0]%nat
  ++ replicate 8 [0; 0; 0; 0; 1; 0]%nat ++ replicate 5 [0; 0; 0; 0; 0; 1]%nat.

(** ** Sample data, after the set-up script's seed rows *)

Definition jan1 : string := "2024-01-01 00:00:00".
Definition jan2 : string := "2024-01-02 00:00:00".
Definition jan3 : string := "2024-01-03 00:00:00".

(** Three categories and three locations, no item yet. *)
Definition catalog : database :=
  run [CreateCategory jan1
         (CategoryCreate.Make "Toner" (Some "Toner cartridges for printers"));
       CreateCategory jan1
         (CategoryCreate.Make "Paper" (Some "Printing paper and materials"));
       CreateCategory jan1 (CategoryCreate.Make "Ink" (Some "Ink cartridges"));
       CreateLocation jan1
         (LocationCreate.Make "Main School" "123 Education Street, District A");
       CreateLocation jan1
         (LocationCreate.Make "Branch School A"
            "456 Learning Avenue, District B");
       CreateLocation jan1
         (LocationCreate.Make "Branch School B"
            "789 Knowledge Boulevard, District C")]
    empty_db.

Definition toner : InventoryItemCreate.t :=
  InventoryItemCreate.Make "Toner Cartridge Black HP 305A" "TCB-001" 1 150 50
    (4599 # 100) 1.

Definition ink : InventoryItemCreate.t :=
  InventoryItemCreate.Make "Ink Cartridge Epson 603XL" "IC-001" 3 20 30
    (51 # 2) 3.

(** The ink again, with 60 in stock. *)
Definition restocked_ink : InventoryItemCreate.t :=
  InventoryItemCreate.Make "Ink Cartridge Epson 603XL" "IC-001" 3 60 30
    (51 # 2) 3.

(** The toner is item 1; the ink, where stored, is item 2. *)
Definition with_toner : database := run [CreateInventoryItem jan1 toner] catalog.
Definition with_ink : database := run [CreateInventoryItem jan2 ink] with_toner.

Definition sale_of_toner : TransactionCreate.t :=
  TransactionCreate.Make 1 1 "sale" 120 (4599 # 100) "Pending" None
    (Some "Delivered to Main School").

(** The toner, created in stock and then sold down to 30 of a threshold of
    50. *)
Definition after_sale : database :=
  run [CreateTransaction jan2 sale_of_toner] with_toner.





(** A sale that names an item and a location nobody stored. *)
Definition dangling_sale : TransactionCreate.t :=
  TransactionCreate.Make 99 77 "sale" 3 (5 # 2) "Pending" None None.

(** * Facts about the storage layer *)

Section storage.
Context {A : Type}.
Implicit Types (t : table A) (m : gmap Z A) (k : Z) (r : A).

Lemma max_rowid_bound m k r : m !! k = Some r → k ≤ max_rowid m.
Proof.
  unfold max_rowid. revert k r.
  apply (map_fold_weak_ind (λ acc m, ∀ k r, m !! k = Some r → k ≤ acc)).
  - intros k r Hk. by rewrite lookup_empty in Hk.
  - intros i x m' acc _ IH k r Hk.
    destruct (decide (i = k)) as [->|Hne]; [lia|].
    rewrite lookup_insert_ne in Hk by done.
    specialize (IH k r Hk). lia.
Qed.

Lemma next_rowid_fresh t : rows t !! next_rowid t = None.
Proof.
  destruct (rows t !! next_rowid t) as [r|] eqn:Hk; [|done].
  apply max_rowid_bound in Hk. unfold next_rowid in Hk. lia.
Qed.

Lemma insert_row_lookup r t :
  rows (insert_row r t).1 !! (insert_row r t).2 = Some r.
Proof. simpl. apply lookup_insert_eq. Qed.

Lemma insert_row_old r t k :
  k ≠ (insert_row r t).2 →
  rows (insert_row r t).1 !! k = rows t !! k.
Proof. intros Hk. simpl in *. by rewrite lookup_insert_ne. Qed.

Lemma update_row_absent (f : A → A) k t :
  rows t !! k = None → update_row f k t = t.
Proof.
  intros Hk. destruct t as [m s]. unfold update_row. simpl in *.
  by rewrite alter_id'.
Qed.

Lemma delete_row_absent k t : rows t !! k = None → delete_row k t = t.
Proof.
  intros Hk. destruct t as [m s]. unfold delete_row. simpl in *.
  by rewrite delete_id.
Qed.

Lemma taken_spec (col : A → string) v t :
  taken col v t = true ↔ ∃ k r, rows t !! k = Some r ∧ col r = v.
Proof.
  unfold taken, scan. rewrite bool_decide_eq_true, list_elem_of_fmap.
  split.
  - intros [[k r] [-> Hin]]. apply elem_of_map_to_list in Hin. eauto.
  - intros (k & r & Hk & <-). exists (k, r).
    split; [done|]. by apply elem_of_map_to_list.
Qed.

Lemma taken_free (col : A → string) v t :
  taken col v t = false ↔ ∀ k r, rows t !! k = Some r → col r ≠ v.
Proof.
  rewrite <- not_true_iff_false, taken_spec. split.
  - intros Hno k r Hk Hv. apply Hno. eauto.
  - intros Hall (k & r & Hk & Hv). by apply (Hall k r).
Qed.

Lemma taken_by_other_spec (col : A → string) v k t :
  taken_by_other col v k t = true
  ↔ ∃ k' r, k' ≠ k ∧ rows t !! k' = Some r ∧ col r = v.
Proof.
  unfold taken_by_other, scan.
  rewrite bool_decide_eq_true, list_elem_of_fmap. split.
  - intros [[k' r] [-> Hin]]. apply list_elem_of_filter in Hin as [Hne Hin].
    apply elem_of_map_to_list in Hin. eauto.
  - intros (k' & r & Hne & Hk & <-). exists (k', r). split; [done|].
    apply list_elem_of_filter. split; [done|]. by apply elem_of_map_to_list.
Qed.
End storage.

(** Writing a table back unchanged leaves the database as it was. *)
Lemma set_inventory_items_same f db :
  f (inventory_items db) = inventory_items db → set_inventory_items f db = db.
Proof. destruct db. unfold set_inventory_items. simpl. by intros ->. Qed.

Lemma set_locations_same f db :
  f (locations db) = locations db → set_locations f db = db.
Proof. destruct db. unfold set_locations. simpl. by intros ->. Qed.

Lemma set_printers_same f db :
  f (printers db) = printers db → set_printers f db = db.
Proof. destruct db. unfold set_printers. simpl. by intros ->. Qed.

Lemma reachable_run rs db : reachable db → reachable (run rs db).
Proof.
  revert db. induction rs as [|r rs IH]; intros db Hdb; [done|].
  apply IH, reachable_serve, Hdb.
Qed.

(** * The transaction recorder *)

Lemma create_transaction_inventory now t db :
  inventory_items (create_transaction now t db).1 =
    if String.eqb (TransactionCreate.transaction_type t) "sale"
    then update_row (sold (TransactionCreate.quantity t))
           (TransactionCreate.item_id t) (inventory_items db)
    else inventory_items db.
Proof.
  unfold create_transaction, insert_transaction, insert_row. simpl.
  destruct (String.eqb _ _); simpl;
    match goal with |- context [select_transaction ?k ?d] =>
      destruct (select_transaction k d) end; reflexivity.
Qed.

Lemma create_transaction_returns now t db :
  let k := next_rowid (transactions db) in
  let row :=
    TransactionRow (TransactionCreate.item_id t)
      (TransactionCreate.location_id t) (TransactionCreate.transaction_type t)
      (TransactionCreate.quantity t) (TransactionCreate.price_per_unit t)
      (inject_Z (TransactionCreate.quantity t)
       * TransactionCreate.price_per_unit t)%Q
      (TransactionCreate.payment_status t) (TransactionCreate.payment_date t)
      (TransactionCreate.notes t) now in
  ∃ d, (create_transaction now t db).2 = Return d
       ∧ tr_id d = k ∧ transaction d = row
       ∧ rows (transactions (create_transaction now t db).1) !! k = Some row.
Proof.
  unfold create_transaction, insert_transaction, insert_row,
    select_transaction. simpl.
  destruct (String.eqb _ _); simpl; rewrite lookup_insert_eq; simpl;
    eexists; repeat split; apply lookup_insert_eq.
Qed.


(** C2.  A "sale" against a stored item rewrites its quantity and nothing
    else: name, sku, category, threshold, price, location, printer, creation
    time and, in particular, status stay as stored.  So a state can be
    reached in which an item is stored as "In Stock" with its quantity under
    [min_stock]. *)
Theorem sale_keeps_status :
  (∀ now t db r,
     TransactionCreate.transaction_type t = "sale" →
     rows (inventory_items db) !! TransactionCreate.item_id t = Some r →
     ∃ r', rows (inventory_items (create_transaction now t db).1)
             !! TransactionCreate.item_id t = Some r'
           ∧ status r' = status r
           ∧ name r' = name r ∧ sku r' = sku r
           ∧ category_id r' = category_id r ∧ min_stock r' = min_stock r
           ∧ price r' = price r ∧ location_id r' = location_id r
           ∧ printer_id r' = printer_id r ∧ created_at r' = created_at r)
  ∧ (∃ db k r,
       reachable db ∧ rows (inventory_items db) !! k = Some r
       ∧ status r = "In Stock" ∧ quantity r < min_stock r).
Proof.
  split.
  - intros now t db r Hsale Hr.
    rewrite create_transaction_inventory.
    apply String.eqb_eq in Hsale. rewrite Hsale. simpl.
    rewrite lookup_alter_eq, Hr. simpl.
    eexists. split; [done|]. by repeat split.
  - exists after_sale, 1, (sold 120 (stored toner "In Stock" jan1)).
    split; [do 3 apply reachable_run; apply reachable_empty|].
    split; [by vm_compute|]. split; [done|]. simpl. lia.
Qed.




Lemma sale_keeps_status_witness :
  ∃ r', rows (inventory_items
                (create_transaction jan2 sale_of_toner with_toner).1) !! 1
          = Some r'
        ∧ status r' = "In Stock" ∧ min_stock r' = 50.
Proof.
  destruct sale_keeps_status as [Hframe _].
  destruct (Hframe jan2 sale_of_toner with_toner
              (stored toner "In Stock" jan1))
    as (r' & Hr' & Hstatus & _ & _ & _ & Hmin & _);
    [reflexivity | by vm_compute |].
  exists r'. split; [exact Hr'|]. split; [exact Hstatus|exact Hmin].
Defined.

(** * The inventory ledger *)

Lemma create_inventory_item_conflict now i db :
  taken sku (InventoryItemCreate.sku i) (inventory_items db) = true →
  create_inventory_item now i db
    = (db, HTTPException 400 "SKU already exists").
Proof.
  intros Htaken. unfold create_inventory_item, insert_inventory_item.
  by rewrite Htaken.
Qed.

Lemma create_inventory_item_fresh now i db :
  taken sku (InventoryItemCreate.sku i) (inventory_items db) = false →
  let k := next_rowid (inventory_items db) in
  let status :=
    if InventoryItemCreate.quantity i <? InventoryItemCreate.min_stock i
    then "Low Stock" else "In Stock" in
  let db' :=
    set_inventory_items
      (λ tb, Table (<[k := stored i status now]> (rows tb)) k) db in
  create_inventory_item now i db
    = (db', Return (join_item db' (k, stored i status now))).
Proof.
  intros Hfree. unfold create_inventory_item, insert_inventory_item.
  rewrite Hfree. unfold insert_row, select_item. simpl.
  by rewrite lookup_insert_eq.
Qed.

Lemma update_inventory_item_found k i db r :
  rows (inventory_items db) !! k = Some r →
  taken_by_other sku (InventoryItemCreate.sku i) k (inventory_items db)
    = false →
  let status :=
    if InventoryItemCreate.quantity i <? InventoryItemCreate.min_stock i
    then "Low Stock" else "In Stock" in
  let row :=
    ItemRow (InventoryItemCreate.name i) (InventoryItemCreate.sku i)
      (InventoryItemCreate.category_id i) (InventoryItemCreate.quantity i)
      (InventoryItemCreate.min_stock i) (InventoryItemCreate.price i)
      (InventoryItemCreate.location_id i) (printer_id r) status
      (created_at r) in
  ∃ db', update_inventory_item k i db = (db', Return (join_item db' (k, row)))
         ∧ rows (inventory_items db') !! k = Some row.
Proof.
  intros Hr Hfree. unfold update_inventory_item, update_inventory_item_row.
  rewrite Hfree, andb_false_r. unfold select_item, update_row. simpl.
  rewrite lookup_alter_eq, Hr. simpl. eexists. split; [done|]. simpl.
  by rewrite lookup_alter_eq, Hr.
Qed.

Lemma update_inventory_item_absent k i db :
  rows (inventory_items db) !! k = None →
  update_inventory_item k i db = (db, HTTPException 404 "Item not found").
Proof.
  intros Hk. unfold update_inventory_item, update_inventory_item_row.
  rewrite bool_decide_eq_false_2 by (rewrite Hk; by intros [? ?]).
  simpl. unfold select_item. simpl. rewrite lookup_alter_eq, Hk. simpl.
  rewrite set_inventory_items_same by (by apply update_row_absent).
  done.
Qed.

Lemma update_inventory_item_duplicate k i db r :
  rows (inventory_items db) !! k = Some r →
  taken_by_other sku (InventoryItemCreate.sku i) k (inventory_items db)
    = true →
  update_inventory_item k i db
    = (db, Uncaught (unique_failed "inventory_items.sku")).
Proof.
  intros Hr Htaken. unfold update_inventory_item, update_inventory_item_row.
  rewrite Htaken, bool_decide_eq_true_2 by (rewrite Hr; eauto). done.
Qed.

(** C3.  When creating or updating an item succeeds, the row stored under
    the returned id carries the quantity and threshold of the request, and
    its status is "Low Stock" if that quantity is under that threshold and
    "In Stock" otherwise. *)
Theorem status_computed_on_write now k i db db' d :
  create_inventory_item now i db = (db', Return d)
  ∨ update_inventory_item k i db = (db', Return d) →
  rows (inventory_items db') !! id d = Some (item d)
  ∧ quantity (item d) = InventoryItemCreate.quantity i
  ∧ min_stock (item d) = InventoryItemCreate.min_stock i
  ∧ (InventoryItemCreate.quantity i < InventoryItemCreate.min_stock i →
     status (item d) = "Low Stock")
  ∧ (InventoryItemCreate.min_stock i ≤ InventoryItemCreate.quantity i →
     status (item d) = "In Stock").
Proof.
  intros [Hcreate|Hupdate].
  - destruct (taken sku (InventoryItemCreate.sku i) (inventory_items db))
      eqn:Htaken.
    + by rewrite create_inventory_item_conflict in Hcreate.
    + rewrite create_inventory_item_fresh in Hcreate by done.
      injection Hcreate as <- <-. simpl.
      rewrite lookup_insert_eq. repeat split; try done.
      * intros Hlt. apply Z.ltb_lt in Hlt. by rewrite Hlt.
      * intros Hge. apply Z.ltb_ge in Hge. by rewrite Hge.
  - destruct (rows (inventory_items db) !! k) as [r|] eqn:Hr.
    + destruct (taken_by_other sku (InventoryItemCreate.sku i) k
                  (inventory_items db)) eqn:Htaken.
      * by rewrite (update_inventory_item_duplicate k i db r) in Hupdate.
      * destruct (update_inventory_item_found k i db r Hr Htaken)
          as (db1 & Hrun & Hrow).
        rewrite Hrun in Hupdate. injection Hupdate as <- <-. simpl.
        rewrite Hrow. repeat split; try done.
        -- intros Hlt. apply Z.ltb_lt in Hlt. by rewrite Hlt.
        -- intros Hge. apply Z.ltb_ge in Hge. by rewrite Hge.
    + by rewrite update_inventory_item_absent in Hupdate.
Qed.

Lemma status_computed_on_write_witness :
  let created := create_inventory_item jan2 ink with_toner in
  let updated := update_inventory_item 2 restocked_ink created.1 in
  (∃ d, created.2 = Return d ∧ status (item d) = "Low Stock")
  ∧ (∃ d, updated.2 = Return d ∧ status (item d) = "In Stock").
Proof.
  intros created updated. split.
  - destruct (status_computed_on_write jan2 0 ink with_toner created.1
                (join_item created.1 (2, stored ink "Low Stock" jan2)))
      as (_ & _ & _ & Hlow & _); [left; by vm_compute|].
    eexists. split; [by vm_compute|]. apply Hlow. simpl. lia.
  - destruct (status_computed_on_write jan3 2 restocked_ink created.1
                updated.1
                (join_item updated.1
                   (2, stored restocked_ink "In Stock" jan2)))
      as (_ & _ & _ & _ & Hin); [right; by vm_compute|].
    eexists. split; [by vm_compute|]. apply Hin. simpl. lia.
Defined.



(** * Failing calls write nothing *)

Ltac insert_cases :=
  repeat match goal with
    | |- context [taken ?c ?v ?t] => destruct (taken c v t)
    end;
  simpl; rewrite ?lookup_insert_eq; simpl; try done.

Lemma register_failed now u db :
  failed (register now u db).2 = true → (register now u db).1 = db.
Proof. unfold register, insert_user, insert_row. insert_cases. Qed.

Lemma create_category_failed now c db :
  failed (create_category now c db).2 = true →
  (create_category now c db).1 = db.
Proof. unfold create_category, insert_category, insert_row. insert_cases. Qed.

Lemma create_location_failed now l db :
  failed (create_location now l db).2 = true →
  (create_location now l db).1 = db.
Proof. unfold create_location, insert_location, insert_row. insert_cases. Qed.

Lemma create_printer_failed now p db :
  failed (create_printer now p db).2 = true →
  (create_printer now p db).1 = db.
Proof.
  unfold create_printer, insert_printer, insert_row, select_printer.
  insert_cases.
Qed.

Lemma create_inventory_item_failed now i db :
  failed (create_inventory_item now i db).2 = true →
  (create_inventory_item now i db).1 = db.
Proof.
  unfold create_inventory_item, insert_inventory_item, insert_row, select_item.
  insert_cases.
Qed.

Lemma update_inventory_item_failed k i db :
  failed (update_inventory_item k i db).2 = true →
  (update_inventory_item k i db).1 = db.
Proof.
  unfold update_inventory_item, update_inventory_item_row, select_item.
  destruct (_ && _); [done|]. simpl. rewrite lookup_alter_eq.
  destruct (rows (inventory_items db) !! k) eqn:Hk; simpl; [done|].
  intros _. apply set_inventory_items_same. by apply update_row_absent.
Qed.

Lemma update_location_failed k l db :
  failed (update_location k l db).2 = true → (update_location k l db).1 = db.
Proof.
  unfold update_location, update_location_row.
  destruct (_ && _); [done|]. simpl. rewrite lookup_alter_eq.
  destruct (rows (locations db) !! k) eqn:Hk; simpl; [done|].
  intros _. apply set_locations_same. by apply update_row_absent.
Qed.

Lemma update_printer_failed k p db :
  failed (update_printer k p db).2 = true → (update_printer k p db).1 = db.
Proof.
  unfold update_printer, update_printer_row, select_printer.
  destruct (_ && _); [done|]. simpl. rewrite lookup_alter_eq.
  destruct (rows (printers db) !! k) eqn:Hk; simpl; [done|].
  intros _. apply set_printers_same. by apply update_row_absent.
Qed.

Lemma create_transaction_never_fails now t db :
  failed (create_transaction now t db).2 = false.
Proof.
  destruct (create_transaction_returns now t db) as (d & -> & _). done.
Qed.

(** C10.  Whatever the request and the stored state, a handler that raises
    (the 400 of a duplicate key, the 404 of an absent id, or an exception
    nobody catches) leaves the stored state exactly as it found it. *)
Theorem failure_writes_nothing r db :
  (serve r db).2 = true → (serve r db).1 = db.
Proof.
  destruct r; simpl; try done.
  - apply register_failed.
  - apply create_category_failed.
  - apply create_inventory_item_failed.
  - apply update_inventory_item_failed.
  - apply create_location_failed.
  - apply update_location_failed.
  - apply create_printer_failed.
  - apply update_printer_failed.
  - by rewrite create_transaction_never_fails.
Qed.

Lemma failure_writes_nothing_witness :
  (serve (CreateInventoryItem jan2 toner) with_toner).2 = true
  ∧ (serve (UpdateInventoryItem 7 ink) with_toner).2 = true
  ∧ (serve (CreateInventoryItem jan2 toner) with_toner).1 = with_toner
  ∧ (serve (UpdateInventoryItem 7 ink) with_toner).1 = with_toner.
Proof.
  split; [by vm_compute|]. split; [by vm_compute|]. split.
  - apply failure_writes_nothing. by vm_compute.
  - apply failure_writes_nothing. by vm_compute.
Defined.

(** * Unique keys *)





(** Every create hands a duplicate key back as a 400 naming the field. *)
Lemma create_conflicts_are_400 :
  (∀ now u db,
     taken username (UserRegister.username u) (users db) = true
     ∨ taken email (UserRegister.email u) (users db) = true →
     (register now u db).2
       = HTTPException 400 "Username or email already exists")
  ∧ (∀ now c db,
       taken cat_name (CategoryCreate.name c) (categories db) = true →
       (create_category now c db).2
         = HTTPException 400 "Category already exists")
  ∧ (∀ now l db,
       taken loc_name (LocationCreate.name l) (locations db) = true →
       (create_location now l db).2
         = HTTPException 400 "Location already exists")
  ∧ (∀ now p db,
       taken serial_number (PrinterCreate.serial_number p) (printers db)
         = true →
       (create_printer now p db).2
         = HTTPException 400 "Serial number already exists")
  ∧ (∀ now i db,
       taken sku (InventoryItemCreate.sku i) (inventory_items db) = true →
       (create_inventory_item now i db).2
         = HTTPException 400 "SKU already exists").
Proof.
  repeat split.
  - intros now u db [H|H]; unfold register, insert_user.
    + by rewrite H.
    + rewrite H. by destruct (taken username _ _).
  - intros now c db H. unfold create_category, insert_category. by rewrite H.
  - intros now l db H. unfold create_location, insert_location. by rewrite H.
  - intros now p db H. unfold create_printer, insert_printer. by rewrite H.
  - intros now i db H. by rewrite create_inventory_item_conflict.
Qed.

(** The updates run their statement outside any [try]: the same violation
    leaves the handler as the exception SQLite raised. *)
Lemma update_conflicts_are_uncaught :
  (∀ k i db,
     is_Some (rows (inventory_items db) !! k) →
     taken_by_other sku (InventoryItemCreate.sku i) k (inventory_items db)
       = true →
     (update_inventory_item k i db).2
       = Uncaught (unique_failed "inventory_items.sku"))
  ∧ (∀ k l db,
       is_Some (rows (locations db) !! k) →
       taken_by_other loc_name (LocationCreate.name l) k (locations db)
         = true →
       (update_location k l db).2 = Uncaught (unique_failed "locations.name"))
  ∧ (∀ k p db,
       is_Some (rows (printers db) !! k) →
       taken_by_other serial_number (PrinterCreate.serial_number p) k
         (printers db) = true →
       (update_printer k p db).2
         = Uncaught (unique_failed "printers.serial_number")).
Proof.
  repeat split.
  - intros k i db [r Hr] Htaken.
    by rewrite (update_inventory_item_duplicate k i db r).
  - intros k l db Hk Htaken. unfold update_location, update_location_row.
    by rewrite Htaken, bool_decide_eq_true_2.
  - intros k p db Hk Htaken. unfold update_printer, update_printer_row.
    by rewrite Htaken, bool_decide_eq_true_2.
Qed.

(** C7 at its failing input: with two items stored, an update that gives the
    second the sku of the first raises [sqlite3.IntegrityError] out of the
    handler, where the create of the same sku is answered with a 400. *)
Theorem update_to_stored_sku_is_uncaught :
  update_inventory_item 2 toner with_ink
    = (with_ink,
       Uncaught
         (IntegrityError "UNIQUE constraint failed: inventory_items.sku"))
  ∧ ¬ ConflictError (update_inventory_item 2 toner with_ink).2
  ∧ ConflictError (create_inventory_item jan3 toner with_ink).2.
Proof.
  assert (update_inventory_item 2 toner with_ink
          = (with_ink, Uncaught (unique_failed "inventory_items.sku")))
    as Hrun.
  { apply (update_inventory_item_duplicate 2 toner with_ink
             (stored ink "Low Stock" jan2)); by vm_compute. }
  split; [exact Hrun|]. split.
  - rewrite Hrun. by intros [detail Hd].
  - exists "SKU already exists". by vm_compute.
Qed.

(** * The low-stock report *)

#[global] Instance by_quantity_total : Total by_quantity.
Proof. intros a b. unfold by_quantity. lia. Qed.

#[global] Instance by_quantity_trans : Transitive by_quantity.
Proof. intros a b c. unfold by_quantity. lia. Qed.

Lemma low_stock_ids db :
  id <$> get_low_stock_report db
  ≡ₚ fst <$> filter (λ p, quantity p.2 < min_stock p.2)
               (scan (inventory_items db)).
Proof.
  unfold get_low_stock_report. rewrite merge_sort_Permutation.
  rewrite <- list_fmap_compose. done.
Qed.

(** C5.  The low-stock report holds one entry for every stored item whose
    quantity is under its [min_stock], and nothing else: the stored status
    plays no part.  The entries come in ascending order of quantity. *)
Theorem low_stock_report_exact db :
  (∀ d, d ∈ get_low_stock_report db
        ↔ ∃ k r, rows (inventory_items db) !! k = Some r
                 ∧ quantity r < min_stock r
                 ∧ d = join_item db (k, r))
  ∧ NoDup (id <$> get_low_stock_report db)
  ∧ StronglySorted by_quantity (get_low_stock_report db).
Proof.
  split; [|split].
  - intros d. unfold get_low_stock_report.
    rewrite merge_sort_Permutation, list_elem_of_fmap. split.
    + intros [[k r] [-> Hin]]. apply list_elem_of_filter in Hin as [Hlow Hin].
      apply elem_of_map_to_list in Hin. eauto.
    + intros (k & r & Hk & Hlow & ->). exists (k, r). split; [done|].
      apply list_elem_of_filter. split; [done|].
      by apply elem_of_map_to_list.
  - rewrite low_stock_ids.
    eapply sublist_NoDup;
      [apply (NoDup_fst_map_to_list (rows (inventory_items db)))|].
    apply fmap_sublist, sublist_filter.
  - apply StronglySorted_merge_sort; apply _.
Qed.

(** The report follows the stored quantity, not the stored status: the item
    sold down below its threshold is listed while still stored as
    "In Stock". *)
Example low_stock_report_lists_stale_item :
  (status ∘ item) <$> get_low_stock_report after_sale = ["In Stock"]
  ∧ (quantity ∘ item) <$> get_low_stock_report after_sale = [30].
Proof. by vm_compute. Qed.

(** * The financial summary *)











(** * Invariants kept by the writing handlers *)

Section table_invariants.
Context {A : Type}.
Implicit Types (t : table A) (k : Z) (r : A) (col : A → string).

Lemma unique_on_insert col r t :
  unique_on col t → taken col (col r) t = false →
  unique_on col (insert_row r t).1.
Proof.
  intros Huniq Hfree k1 k2 r1 r2. simpl.
  pose proof (proj1 (taken_free col (col r) t) Hfree) as Hno.
  destruct (decide (k1 = next_rowid t)) as [->|H1],
           (decide (k2 = next_rowid t)) as [->|H2];
    rewrite ?lookup_insert_eq, ?lookup_insert_ne by done;
    intros Hr1 Hr2 Hcol; simplify_eq; try done.
  - by destruct (Hno k2 r2).
  - by destruct (Hno k1 r1).
  - by apply (Huniq k1 k2 r1 r2).
Qed.

Lemma unique_on_update_to col (f : A → A) v k t :
  unique_on col t → (∀ r, col (f r) = v) →
  rows t !! k = None ∨ taken_by_other col v k t = false →
  unique_on col (update_row f k t).
Proof.
  intros Huniq Hv [Habsent|Hfree].
  - by rewrite update_row_absent.
  - assert (∀ k' r, k' ≠ k → rows t !! k' = Some r → col r ≠ v) as Hno.
    { intros k' r Hne Hk' Hcol.
      apply not_true_iff_false in Hfree. apply Hfree.
      apply taken_by_other_spec. eauto. }
    intros k1 k2 r1 r2. simpl.
    destruct (decide (k1 = k)) as [->|H1], (decide (k2 = k)) as [->|H2];
      rewrite ?lookup_alter_eq, ?lookup_alter_ne by done; try done.
    + intros Hr1 Hr2 Hcol.
      destruct (rows t !! k) as [r|]; simplify_eq/=.
      rewrite Hv in Hcol. by destruct (Hno k2 r2).
    + intros Hr1 Hr2 Hcol.
      destruct (rows t !! k) as [r|]; simplify_eq/=.
      rewrite Hv in Hcol. by destruct (Hno k1 r1).
    + apply Huniq.
Qed.

Lemma unique_on_update_same col (f : A → A) k t :
  unique_on col t → (∀ r, col (f r) = col r) →
  unique_on col (update_row f k t).
Proof.
  intros Huniq Hsame k1 k2 r1 r2. simpl.
  rewrite !lookup_alter.
  repeat case_decide; subst; intros Hr1 Hr2 Hcol; try done.
  - destruct (rows t !! k1) as [r|] eqn:Hr; simplify_eq/=.
    rewrite Hsame in Hcol. by apply (Huniq k1 k2 r r2).
  - destruct (rows t !! k2) as [r|] eqn:Hr; simplify_eq/=.
    rewrite Hsame in Hcol. by apply (Huniq k1 k2 r1 r).
  - by apply (Huniq k1 k2 r1 r2).
Qed.

Lemma unique_on_delete col k t : unique_on col t → unique_on col (delete_row k t).
Proof.
  intros Huniq k1 k2 r1 r2. simpl.
  intros [_ Hr1]%lookup_delete_Some [_ Hr2]%lookup_delete_Some.
  by apply Huniq.
Qed.

Lemma issued_insert r t : issued t → issued (insert_row r t).1.
Proof.
  intros [Hseq Hrows]. split; simpl.
  - unfold next_rowid. lia.
  - intros k r'. destruct (decide (k = next_rowid t)) as [->|Hne].
    + unfold next_rowid. lia.
    + rewrite lookup_insert_ne by done. intros Hk.
      specialize (Hrows k r' Hk). unfold next_rowid. lia.
Qed.

Lemma issued_update (f : A → A) k t : issued t → issued (update_row f k t).
Proof.
  intros [Hseq Hrows]. split; [done|]. simpl. intros k' r'.
  rewrite lookup_alter. case_decide; subst; [|by apply Hrows].
  destruct (rows t !! k') as [r|] eqn:Hr; [|done]. intros _.
  by apply (Hrows k' r).
Qed.

Lemma issued_delete k t : issued t → issued (delete_row k t).
Proof.
  intros [Hseq Hrows]. split; [done|]. simpl.
  intros k' r' [_ Hk']%lookup_delete_Some. by apply (Hrows k' r').
Qed.

Lemma issued_next t : issued t → next_rowid t = seq t + 1.
Proof.
  intros [Hseq Hrows]. unfold next_rowid.
  assert (max_rowid (rows t) ≤ seq t); [|lia].
  unfold max_rowid.
  apply (map_fold_weak_ind (λ acc m, (∀ k r, m !! k = Some r → k ≤ seq t)
                                     → acc ≤ seq t)); [done| |].
  - intros i x m acc Hi IH Hall.
    pose proof (Hall i x (lookup_insert_eq _ _ _)).
    assert (acc ≤ seq t); [|lia].
    apply IH. intros k r Hk. apply (Hall k r).
    rewrite lookup_insert_ne; [done|]. intros ->. by rewrite Hi in Hk.
  - intros k r Hk. by apply (Hrows k r).
Qed.

Lemma seq_insert_grows r t : seq t < seq (insert_row r t).1.
Proof. simpl. unfold next_rowid. lia. Qed.
End table_invariants.

(** What each writing handler leaves behind, whatever it answers. *)
Ltac handler_effect stmt :=
  destruct stmt as [[? ?]|[?|?]]; simpl;
  repeat match goal with
    | |- context [match ?x with Some _ => _ | None => _ end] => destruct x
    end; reflexivity.

Lemma register_effect now u db :
  (register now u db).1
  = match insert_user now u db with Done (db1, _) => db1 | Raise _ => db end.
Proof. unfold register. handler_effect (insert_user now u db). Qed.

Lemma create_category_effect now c db :
  (create_category now c db).1
  = match insert_category now c db with
    | Done (db1, _) => db1
    | Raise _ => db
    end.
Proof. unfold create_category. handler_effect (insert_category now c db). Qed.

Lemma create_location_effect now l db :
  (create_location now l db).1
  = match insert_location now l db with
    | Done (db1, _) => db1
    | Raise _ => db
    end.
Proof. unfold create_location. handler_effect (insert_location now l db). Qed.

Lemma create_printer_effect now p db :
  (create_printer now p db).1
  = match insert_printer now p db with
    | Done (db1, _) => db1
    | Raise _ => db
    end.
Proof. unfold create_printer. handler_effect (insert_printer now p db). Qed.

Lemma create_inventory_item_effect now i db :
  (create_inventory_item now i db).1
  = match insert_inventory_item now i
            (if InventoryItemCreate.quantity i
                <? InventoryItemCreate.min_stock i
             then "Low Stock" else "In Stock") db with
    | Done (db1, _) => db1
    | Raise _ => db
    end.
Proof.
  unfold create_inventory_item.
  handler_effect (insert_inventory_item now i
                    (if InventoryItemCreate.quantity i
                        <? InventoryItemCreate.min_stock i
                     then "Low Stock" else "In Stock") db).
Qed.

Ltac update_effect stmt :=
  destruct stmt as [?|?]; simpl;
  repeat match goal with
    | |- context [match ?x with Some _ => _ | None => _ end] => destruct x
    end; reflexivity.

Lemma update_inventory_item_effect k i db :
  (update_inventory_item k i db).1
  = match update_inventory_item_row i
            (if InventoryItemCreate.quantity i
                <? InventoryItemCreate.min_stock i
             then "Low Stock" else "In Stock") k db with
    | Done db1 => db1
    | Raise _ => db
    end.
Proof.
  unfold update_inventory_item.
  update_effect (update_inventory_item_row i
                   (if InventoryItemCreate.quantity i
                       <? InventoryItemCreate.min_stock i
                    then "Low Stock" else "In Stock") k db).
Qed.

Lemma update_location_effect k l db :
  (update_location k l db).1
  = match update_location_row l k db with Done db1 => db1 | Raise _ => db end.
Proof. unfold update_location. update_effect (update_location_row l k db). Qed.

Lemma update_printer_effect k p db :
  (update_printer k p db).1
  = match update_printer_row p k db with Done db1 => db1 | Raise _ => db end.
Proof. unfold update_printer. update_effect (update_printer_row p k db). Qed.

Lemma create_transaction_effect now t db :
  (create_transaction now t db).1
  = let db1 :=
      (insert_transaction now t
         (inject_Z (TransactionCreate.quantity t)
          * TransactionCreate.price_per_unit t)%Q db).1 in
    if String.eqb (TransactionCreate.transaction_type t) "sale"
    then decrement_quantity (TransactionCreate.quantity t)
           (TransactionCreate.item_id t) db1
    else db1.
Proof.
  unfold create_transaction, insert_transaction, insert_row. simpl.
  destruct (String.eqb _ _); simpl;
    match goal with |- context [select_transaction ?k ?d] =>
      destruct (select_transaction k d) end; reflexivity.
Qed.

(** After a refused UPDATE nothing is written; otherwise the row, if there
    is one, is free to take the new key. *)
Lemma update_guard {A} (col : A → string) v k (t : table A) :
  bool_decide (is_Some (rows t !! k)) && taken_by_other col v k t = false →
  rows t !! k = None ∨ taken_by_other col v k t = false.
Proof.
  intros [Habsent|Hfree]%andb_false_iff; [left|by right].
  apply bool_decide_eq_false in Habsent.
  by apply eq_None_not_Some.
Qed.

Ltac open_statement :=
  unfold insert_user, insert_category, insert_location, insert_printer,
    insert_inventory_item, insert_transaction, update_inventory_item_row,
    update_location_row, update_printer_row, decrement_quantity,
    delete_inventory_item, delete_location, delete_printer;
  repeat match goal with
    | |- context [taken ?c ?v ?t] => destruct (taken c v t) eqn:?
    | |- context [bool_decide ?P && ?b] =>
        let H := fresh "Hguard" in
        destruct (bool_decide P && b) eqn:H;
        [|apply update_guard in H]
    | |- context [String.eqb ?a ?b] => destruct (String.eqb a b)
    end;
  simpl.

Lemma serve_unique_keys r db : unique_keys db → unique_keys (serve r db).1.
Proof.
  intros Hkeys. pose proof Hkeys as (Hu & He & Hl & Hc & Hi & Hp).
  destruct r; simpl;
    rewrite ?register_effect, ?create_category_effect,
      ?create_location_effect, ?create_printer_effect,
      ?create_inventory_item_effect, ?update_inventory_item_effect,
      ?update_location_effect, ?update_printer_effect,
      ?create_transaction_effect;
    open_statement; try done;
    unfold unique_keys; simpl; repeat split; try done;
    first [ by apply unique_on_insert
          | by apply unique_on_delete
          | (eapply unique_on_update_to; [eassumption | | eassumption];
             intros ?; reflexivity)
          | by apply unique_on_update_same ].
Qed.

Lemma serve_all_issued r db : all_issued db → all_issued (serve r db).1.
Proof.
  intros Hall. pose proof Hall as (Hu & Hl & Hc & Hi & Hp & Ht).
  destruct r; simpl;
    rewrite ?register_effect, ?create_category_effect,
      ?create_location_effect, ?create_printer_effect,
      ?create_inventory_item_effect, ?update_inventory_item_effect,
      ?update_location_effect, ?update_printer_effect,
      ?create_transaction_effect;
    open_statement; try done;
    unfold all_issued; simpl; split_and!; try done;
    first [ by apply issued_insert
          | by apply issued_delete
          | by apply issued_update ].
Qed.

Lemma unique_on_empty {A} (col : A → string) : unique_on col empty_table.
Proof. intros k1 k2 r1 r2 Hk. simpl in Hk. by rewrite lookup_empty in Hk. Qed.

Lemma issued_empty {A} : issued (@empty_table A).
Proof.
  split; [done|]. intros k r Hk. simpl in Hk. by rewrite lookup_empty in Hk.
Qed.

Lemma reachable_unique_keys db : reachable db → unique_keys db.
Proof.
  induction 1 as [|r db _ IH]; [|by apply serve_unique_keys].
  repeat split; apply unique_on_empty.
Qed.

Lemma reachable_all_issued db : reachable db → all_issued db.
Proof.
  induction 1 as [|r db _ IH]; [|by apply serve_all_issued].
  unfold all_issued. split_and!; apply issued_empty.
Qed.

(** No handler ever lowers a sequence counter. *)
Lemma serve_sequences r db :
  Forall2 Z.le (sequences db) (sequences (serve r db).1).
Proof.
  assert (Forall2 Z.le (sequences db) (sequences db)) as Hsame
    by (by apply Forall_Forall2_diag, Forall_forall).
  destruct r; simpl;
    rewrite ?register_effect, ?create_category_effect,
      ?create_location_effect, ?create_printer_effect,
      ?create_inventory_item_effect, ?update_inventory_item_effect,
      ?update_location_effect, ?update_printer_effect,
      ?create_transaction_effect;
    open_statement; try done;
    unfold sequences; simpl; repeat constructor; try done;
    unfold next_rowid; lia.
Qed.

Lemma run_sequences rs db : Forall2 Z.le (sequences db) (sequences (run rs db)).
Proof.
  revert db. induction rs as [|r rs IH]; intros db; simpl.
  - by apply Forall_Forall2_diag, Forall_forall.
  - pose proof (serve_sequences r db) as Hstep. specialize (IH (serve r db).1).
    unfold sequences in *.
    repeat match goal with
      | H : Forall2 _ (_ :: _) (_ :: _) |- _ =>
          apply Forall2_cons in H as [? H]
      end.
    repeat constructor; lia.
Qed.

(** X1.  The UNIQUE columns stay unique: from a state in which no two users
    share a username or an email, no two locations or categories a name, no
    two items a sku and no two printers a serial number, every sequence of
    requests leads to such a state; so does every state reached from the
    empty one. *)
Theorem unique_keys_are_kept :
  (∀ rs db, unique_keys db → unique_keys (run rs db))
  ∧ (∀ db, reachable db → unique_keys db).
Proof.
  split.
  - intros rs. induction rs as [|r rs IH]; intros db Hkeys; [done|].
    simpl. by apply IH, serve_unique_keys.
  - intros db Hreach. induction Hreach as [|r db _ IH].
    + repeat split; apply unique_on_empty.
    + by apply serve_unique_keys.
Qed.

Lemma unique_keys_are_kept_witness :
  unique_on sku (inventory_items with_ink)
  ∧ unique_on sku
      (inventory_items
         (run [UpdateInventoryItem 2 toner; CreateInventoryItem jan3 ink]
            with_ink)).
Proof.
  destruct unique_keys_are_kept as [Hrun Hreach].
  assert (unique_keys with_ink) as Hkeys.
  { apply Hreach. do 3 apply reachable_run. apply reachable_empty. }
  split; [apply Hkeys|].
  apply (Hrun [UpdateInventoryItem 2 toner; CreateInventoryItem jan3 ink]
           with_ink Hkeys).
Defined.

Lemma create_inventory_item_returned now i db d :
  (create_inventory_item now i db).2 = Return d →
  id d = next_rowid (inventory_items db)
  ∧ seq (inventory_items (create_inventory_item now i db).1) = id d.
Proof.
  destruct (taken sku (InventoryItemCreate.sku i) (inventory_items db))
    eqn:Htaken.
  - by rewrite create_inventory_item_conflict.
  - rewrite create_inventory_item_fresh by done. simpl. by intros [= <-].
Qed.

(** X2.  Item ids are never handed out twice: once a create has returned an
    id, every later create, whatever was served in between (the deletion of
    that very item included), returns a larger one. *)
Theorem item_ids_are_never_reused now i db d rs now' i' d' :
  (create_inventory_item now i db).2 = Return d →
  (create_inventory_item now' i'
     (run rs (create_inventory_item now i db).1)).2 = Return d' →
  id d < id d'.
Proof.
  intros [_ Hseq]%create_inventory_item_returned
         [Hnext _]%create_inventory_item_returned.
  pose proof (run_sequences rs (create_inventory_item now i db).1) as Hmono.
  unfold sequences in Hmono.
  do 3 apply Forall2_cons in Hmono as [_ Hmono].
  apply Forall2_cons in Hmono as [Hle _].
  rewrite Hnext. unfold next_rowid. lia.
Qed.

Lemma item_ids_are_never_reused_witness :
  let first := create_inventory_item jan1 toner catalog in
  let later :=
    create_inventory_item jan3 toner (run [DeleteInventoryItem 1] first.1) in
  ∃ d d', first.2 = Return d ∧ later.2 = Return d' ∧ id d < id d'.
Proof.
  intros first later.
  exists (join_item first.1 (1, stored toner "In Stock" jan1)).
  exists (join_item later.1 (2, stored toner "In Stock" jan3)).
  assert (first.2
          = Return (join_item first.1 (1, stored toner "In Stock" jan1)))
    as Hfirst by (by vm_compute).
  assert (later.2
          = Return (join_item later.1 (2, stored toner "In Stock" jan3)))
    as Hlater by (by vm_compute).
  pose proof (item_ids_are_never_reused jan1 toner catalog _
                [DeleteInventoryItem 1] jan3 toner _ Hfirst Hlater) as Hlt.
  split; [exact Hfirst|]. split; [exact Hlater|exact Hlt].
Defined.

(** * Deleting *)

(** X3.  Deleting an item removes the row with that id and nothing else:
    every other item, every other table and the sequence counter stay, and
    deleting again changes nothing more. *)
Theorem delete_removes_one_item k db :
  let db' := (delete_inventory_item k db).1 in
  rows (inventory_items db') !! k = None
  ∧ (∀ j, j ≠ k →
          rows (inventory_items db') !! j = rows (inventory_items db) !! j)
  ∧ seq (inventory_items db') = seq (inventory_items db)
  ∧ users db' = users db ∧ locations db' = locations db
  ∧ categories db' = categories db ∧ printers db' = printers db
  ∧ transactions db' = transactions db
  ∧ (delete_inventory_item k db').1 = db'.
Proof.
  simpl. split; [apply lookup_delete_eq|].
  split; [intros j Hj; by apply lookup_delete_ne|].
  repeat split.
  apply set_inventory_items_same, delete_row_absent. simpl.
  apply lookup_delete_eq.
Qed.

Lemma list_elem_of_merge_sort {A} (R : relation A) `{!RelDecision R}
    (x : A) (l : list A) :
  x ∈ merge_sort R l ↔ x ∈ l.
Proof. by rewrite merge_sort_Permutation. Qed.

Lemma get_inventory_lists db d :
  d ∈ get_inventory db
  ↔ ∃ k r, rows (inventory_items db) !! k = Some r
           ∧ d = join_printer db (k, r).
Proof.
  unfold get_inventory.
  rewrite list_elem_of_merge_sort, list_elem_of_fmap. split.
  - intros [[k r] [-> Hin]]. apply elem_of_map_to_list in Hin. eauto.
  - intros (k & r & Hk & ->). exists (k, r). split; [done|].
    by apply elem_of_map_to_list.
Qed.

(** X4.  Deleting a location deletes nothing that names it: the items,
    printers and transactions are left as stored, and an item that was at
    the deleted location is still listed by [get_inventory], its
    [location_name] now NULL. *)
Theorem delete_location_orphans_items k db j r :
  rows (inventory_items db) !! j = Some r →
  location_id r = k →
  let db' := (delete_location k db).1 in
  inventory_items db' = inventory_items db
  ∧ printers db' = printers db
  ∧ transactions db' = transactions db
  ∧ ∃ d, d ∈ get_inventory db' ∧ id (listed d) = j ∧ item (listed d) = r
         ∧ location_name (listed d) = None.
Proof.
  intros Hj Hloc db'. repeat split.
  exists (join_printer db' (j, r)). split.
  - apply get_inventory_lists. by exists j, r.
  - repeat split. simpl. by rewrite Hloc, lookup_delete_eq.
Qed.

Lemma delete_location_orphans_items_witness :
  let db' := (delete_location 1 with_toner).1 in
  ∃ d, d ∈ get_inventory db' ∧ id (listed d) = 1
       ∧ item (listed d) = stored toner "In Stock" jan1
       ∧ location_name (listed d) = None.
Proof.
  intros db'.
  destruct (delete_location_orphans_items 1 with_toner 1
              (stored toner "In Stock" jan1))
    as (_ & _ & _ & Hlisted); [by vm_compute|reflexivity|exact Hlisted].
Defined.

(** * Listings *)

(** Text order, as BINARY collation has it, is transitive. *)
Lemma string_compare_trans s1 s2 s3 :
  String.compare s1 s2 ≠ Gt → String.compare s2 s3 ≠ Gt →
  String.compare s1 s3 ≠ Gt.
Proof.
  revert s2 s3. induction s1 as [|a s1 IH]; intros [|b s2] [|c s3];
    simpl; try done.
  unfold Ascii.compare.
  destruct (N.compare_spec (Ascii.N_of_ascii a) (Ascii.N_of_ascii b)) as [Hab|Hab|Hab],
           (N.compare_spec (Ascii.N_of_ascii b) (Ascii.N_of_ascii c)) as [Hbc|Hbc|Hbc],
           (N.compare_spec (Ascii.N_of_ascii a) (Ascii.N_of_ascii c)) as [Hac|Hac|Hac];
    try done; try lia.
  apply IH.
Qed.

Lemma string_leb_trans s1 s2 s3 :
  String.leb s1 s2 = true → String.leb s2 s3 = true →
  String.leb s1 s3 = true.
Proof.
  unfold String.leb. intros H12 H23.
  pose proof (string_compare_trans s1 s2 s3) as Htrans.
  destruct (String.compare s1 s2), (String.compare s2 s3),
           (String.compare s1 s3); try done; by destruct Htrans.
Qed.

#[global] Instance newest_first_total {A} (stamp : A → string) :
  Total (newest_first stamp).
Proof.
  intros a b. unfold newest_first.
  destruct (String.leb_total (stamp a) (stamp b)); auto.
Qed.

#[global] Instance newest_first_trans {A} (stamp : A → string) :
  Transitive (newest_first stamp).
Proof.
  intros a b c. unfold newest_first. intros Hab Hbc.
  by apply (string_leb_trans _ (stamp b)).
Qed.

#[global] Instance by_text_total {A} (col : A → string) : Total (by_text col).
Proof. intros a b. unfold by_text. apply String.leb_total. Qed.

#[global] Instance by_text_trans {A} (col : A → string) :
  Transitive (by_text col).
Proof.
  intros a b c. unfold by_text. apply string_leb_trans.
Qed.

Lemma scan_length_insert {A} k (r : A) (m : gmap Z A) :
  m !! k = None →
  length (map_to_list (<[k := r]> m)) = S (length (map_to_list m)).
Proof. intros Hk. by rewrite map_to_list_insert. Qed.

Lemma scan_ids_nodup {A} (t : table A) : NoDup (fst <$> scan t).
Proof. apply NoDup_fst_map_to_list. Qed.


(** The row [create_transaction] writes. *)
Lemma create_transaction_log now t db :
  transactions (create_transaction now t db).1
  = (insert_row
       (TransactionRow (TransactionCreate.item_id t)
          (TransactionCreate.location_id t)
          (TransactionCreate.transaction_type t)
          (TransactionCreate.quantity t) (TransactionCreate.price_per_unit t)
          (inject_Z (TransactionCreate.quantity t)
           * TransactionCreate.price_per_unit t)%Q
          (TransactionCreate.payment_status t)
          (TransactionCreate.payment_date t) (TransactionCreate.notes t) now)
       (transactions db)).1.
Proof.
  rewrite create_transaction_effect. simpl.
  by destruct (String.eqb _ _).
Qed.





(** X7.  The transaction log is append-only: no request, and so no sequence
    of requests, removes or rewrites a stored transaction. *)
Theorem transactions_are_append_only rs db k t :
  rows (transactions db) !! k = Some t →
  rows (transactions (run rs db)) !! k = Some t.
Proof.
  revert db. induction rs as [|r rs IH]; intros db Hk; [done|].
  simpl. apply IH.
  destruct r; simpl;
    rewrite ?register_effect, ?create_category_effect,
      ?create_location_effect, ?create_printer_effect,
      ?create_inventory_item_effect, ?update_inventory_item_effect,
      ?update_location_effect, ?update_printer_effect;
    try (open_statement; done).
  rewrite create_transaction_log. simpl.
  rewrite lookup_insert_ne; [done|]. intros <-.
  by rewrite next_rowid_fresh in Hk.
Qed.

Lemma transactions_are_append_only_witness :
  let first := (create_transaction jan2 sale_of_toner with_toner).1 in
  ∃ t, rows (transactions first) !! 1 = Some t
       ∧ rows (transactions
                 (run [CreateTransaction jan3 dangling_sale;
                       DeleteInventoryItem 1; DeleteLocation 1] first)) !! 1
         = Some t.
Proof.
  intros first. eexists. split; [by vm_compute|].
  apply transactions_are_append_only. by vm_compute.
Defined.

(** * Sales one after the other *)





(** * The dashboard *)




(** X10.  The dashboard's item count follows the ledger: a create that
    returns raises it by one, a create that is refused leaves it, and
    deleting a stored item lowers it by one. *)
Theorem total_items_follows_the_ledger db :
  (∀ now i,
     DashboardMetrics.total_items
       (get_dashboard_metrics (create_inventory_item now i db).1)
     = DashboardMetrics.total_items (get_dashboard_metrics db)
       + (if failed (create_inventory_item now i db).2 then 0 else 1))
  ∧ (∀ k r,
       rows (inventory_items db) !! k = Some r →
       DashboardMetrics.total_items
         (get_dashboard_metrics (delete_inventory_item k db).1)
       = DashboardMetrics.total_items (get_dashboard_metrics db) - 1).
Proof.
  unfold get_dashboard_metrics, count, scan.
  cbn [DashboardMetrics.total_items]. split.
  - intros now i.
    destruct (taken sku (InventoryItemCreate.sku i) (inventory_items db))
      eqn:Htaken.
    + rewrite create_inventory_item_conflict by done. simpl. lia.
    + rewrite create_inventory_item_fresh by done. simpl.
      rewrite scan_length_insert by apply next_rowid_fresh. lia.
  - intros k r Hk. simpl.
    rewrite <- (map_to_list_delete (rows (inventory_items db)) k r Hk).
    simpl. lia.
Qed.

Lemma total_items_follows_the_ledger_witness :
  DashboardMetrics.total_items
    (get_dashboard_metrics (delete_inventory_item 1 with_ink).1)
  = DashboardMetrics.total_items (get_dashboard_metrics with_ink) - 1.
Proof.
  destruct (total_items_follows_the_ledger with_ink) as [_ Hdelete].
  apply (Hdelete 1 (stored toner "In Stock" jan1)). by vm_compute.
Defined.

(** * Registering and logging in *)

Lemma head_filter_only {A} (P : A → Prop) `{!∀ x, Decision (P x)}
    (l : list A) (x : A) :
  x ∈ l → P x → (∀ y, y ∈ l → P y → y = x) → head (filter P l) = Some x.
Proof.
  intros Hin HP Honly.
  destruct (filter P l) as [|y l'] eqn:Hf.
  - assert (x ∈ filter P l) as Hx by (by apply list_elem_of_filter).
    rewrite Hf in Hx. by apply elem_of_nil in Hx.
  - assert (y ∈ filter P l) as Hy by (rewrite Hf; left).
    apply list_elem_of_filter in Hy as [HPy Hy]. simpl.
    by rewrite (Honly y Hy HPy).
Qed.

Lemma head_filter_none {A} (P : A → Prop) `{!∀ x, Decision (P x)}
    (l : list A) :
  head (filter P l) = None ↔ ∀ y, y ∈ l → ¬ P y.
Proof.
  split.
  - intros Hnone y Hy HP.
    assert (y ∈ filter P l) as Hin by (by apply list_elem_of_filter).
    destruct (filter P l); [by apply elem_of_nil in Hin|done].
  - intros Hno. destruct (filter P l) as [|y l'] eqn:Hf; [done|].
    assert (y ∈ filter P l) as Hy by (rewrite Hf; left).
    apply list_elem_of_filter in Hy as [HPy Hy]. by destruct (Hno y Hy).
Qed.

Lemma login_finds name pw db k u :
  unique_on username (users db) →
  rows (users db) !! k = Some u → username u = name → password u = pw →
  select_user name pw db = Some (k, u).
Proof.
  intros Huniq Hk Hname Hpw. unfold select_user, scan.
  apply head_filter_only; [by apply elem_of_map_to_list|done|].
  intros [k' u'] Hin [Hname' _]. apply elem_of_map_to_list in Hin.
  simpl in *.
  assert (k' = k) as -> by (apply (Huniq k' k u' u); congruence).
  congruence.
Qed.

(** X11.  Whoever has registered can log in: when [register] returns, a
    login with the same username and password on the state it left is
    answered with that very user. *)
Theorem login_after_register now u db resp :
  (register now u db).2 = Return resp →
  login (UserLogin.Make (UserRegister.username u) (UserRegister.password u))
    (register now u db).1
  = Return {| success := true; user := resp |}.
Proof.
  unfold register, insert_user.
  destruct (taken username _ _) eqn:Hname; [done|].
  destruct (taken email _ _) eqn:Hemail; [done|].
  unfold insert_row. simpl. rewrite lookup_insert_eq. simpl.
  intros [= <-]. unfold login, select_user, scan. simpl.
  rewrite (head_filter_only _ _
             (next_rowid (users db),
              UserRow (UserRegister.username u) (UserRegister.password u)
                (UserRegister.email u) (UserRegister.role u) now)); [done|..].
  - apply elem_of_map_to_list, lookup_insert_eq.
  - done.
  - intros [k' u'] Hin [Hname' _]. apply elem_of_map_to_list in Hin.
    simpl in Hname'.
    destruct (decide (k' = next_rowid (users db))) as [->|Hne].
    + rewrite lookup_insert_eq in Hin. by injection Hin as <-.
    + rewrite lookup_insert_ne in Hin by done.
      by destruct (proj1 (taken_free username _ _) Hname k' u' Hin).
Qed.

Lemma login_after_register_witness :
  let admin := UserRegister.Make "admin" "admin123" "admin@ims.com" "Admin" in
  login (UserLogin.Make "admin" "admin123") (register jan1 admin catalog).1
  = Return {| success := true;
              user := {| ur_id := 1; ur_username := "admin";
                         ur_email := "admin@ims.com"; ur_role := "Admin" |} |}.
Proof.
  intros admin. apply (login_after_register jan1 admin catalog).
  by vm_compute.
Defined.

(** X12.  [login] answers 401 exactly when no stored user has the given
    username together with the given password (a wrong password for a known
    username included); otherwise it returns a stored user with that
    username and password, and with usernames unique that is the one user
    of that name. *)
Theorem login_checks_credentials creds db :
  (login creds db = HTTPException 401 "Invalid credentials"
   ↔ ∀ k u, rows (users db) !! k = Some u →
            ¬ (username u = UserLogin.username creds
               ∧ password u = UserLogin.password creds))
  ∧ (∀ resp, login creds db = Return resp →
       success resp = true
       ∧ ∃ u, rows (users db) !! ur_id (user resp) = Some u
              ∧ username u = UserLogin.username creds
              ∧ password u = UserLogin.password creds
              ∧ ur_username (user resp) = username u
              ∧ ur_email (user resp) = email u
              ∧ ur_role (user resp) = role u)
  ∧ (∀ k u,
       unique_on username (users db) →
       rows (users db) !! k = Some u →
       username u = UserLogin.username creds →
       password u = UserLogin.password creds →
       login creds db
       = Return {| success := true;
                   user := {| ur_id := k; ur_username := username u;
                              ur_email := email u; ur_role := role u |} |}).
Proof.
  split; [|split];
    [| |intros k u Huniq Hk Hname Hpw; unfold login;
        by rewrite (login_finds _ _ _ k u)];
    unfold login, select_user.
  - destruct (head _) as [[k u]|] eqn:Hhead.
    + split; [done|]. intros Hno.
      apply head_Some_elem_of, list_elem_of_filter in Hhead as [HP Hin].
      apply elem_of_map_to_list in Hin. by destruct (Hno k u Hin).
    + split; [|done]. intros _ k u Hk.
      apply (proj1 (head_filter_none _ _) Hhead (k, u)).
      by apply elem_of_map_to_list.
  - intros resp. destruct (head _) as [[k u]|] eqn:Hhead; [|done].
    intros [= <-]. simpl. split; [done|].
    apply head_Some_elem_of, list_elem_of_filter in Hhead as [[Hn Hp] Hin].
    apply elem_of_map_to_list in Hin. by exists u.
Qed.

Lemma login_checks_credentials_witness :
  let admin := UserRegister.Make "admin" "admin123" "admin@ims.com" "Admin" in
  login (UserLogin.Make "admin" "admin124") (register jan1 admin catalog).1
  = HTTPException 401 "Invalid credentials".
Proof.
  intros admin.
  destruct (login_checks_credentials (UserLogin.Make "admin" "admin124")
              (register jan1 admin catalog).1) as ([_ Hreject] & _ & _).
  apply Hreject. intros k u Hk [_ Hpw].
  apply elem_of_map_to_list in Hk. vm_compute in Hk.
  apply elem_of_cons in Hk as [Hk|Hk]; [|by apply elem_of_nil in Hk].
  injection Hk as -> ->. by vm_compute in Hpw.
Defined.

(** * Updating an item *)






(** * Grouped reports *)

Section groups.
Context {A K : Type} `{!EqDecision K}.
Implicit Types (key : A → K) (l : list A) (ks : list K).






End groups.










Section group_sums.
Context {A K : Type} `{!EqDecision K}.
Implicit Types (key : A → K) (l : list A).





End group_sums.

Lemma fmap_unchanged {A} (f : A → A) (l : list A) :
  (∀ x, f x = x) → f <$> l = l.
Proof.
  intros Hf. induction l as [|x l IH]; [done|]. csimpl. by rewrite Hf, IH.
Qed.









(** * Locations and their counts *)




Lemma scan_lists {A} (t : table A) k r :
  (k, r) ∈ scan t ↔ rows t !! k = Some r.
Proof. apply elem_of_map_to_list. Qed.

(** X18.  [get_categories] and [get_printers] list every stored row once and
    nothing else: the categories by name, the printers newest first, each
    printer with the name of its location or NULL when the reference
    dangles. *)
Theorem catalog_listings_are_complete db :
  (∀ k c, (k, c) ∈ get_categories db ↔ rows (categories db) !! k = Some c)
  ∧ NoDup (fst <$> get_categories db)
  ∧ StronglySorted (by_text (cat_name ∘ snd)) (get_categories db)
  ∧ (∀ d, d ∈ get_printers db
          ↔ ∃ k p, rows (printers db) !! k = Some p
                   ∧ d = PrinterDict k p
                           (loc_name
                              <$> rows (locations db) !! pr_location_id p))
  ∧ NoDup (pr_id <$> get_printers db)
  ∧ StronglySorted (newest_first (pr_created_at ∘ printer)) (get_printers db).
Proof.
  split_and!.
  - intros k c. unfold get_categories.
    by rewrite list_elem_of_merge_sort, scan_lists.
  - unfold get_categories. rewrite merge_sort_Permutation.
    apply scan_ids_nodup.
  - apply StronglySorted_merge_sort; apply _.
  - intros d. unfold get_printers.
    rewrite list_elem_of_merge_sort, list_elem_of_fmap. split.
    + intros [[k p] [-> Hin]]. apply scan_lists in Hin. eauto.
    + intros (k & p & Hk & ->). exists (k, p). split; [done|].
      by apply scan_lists.
  - unfold get_printers. rewrite merge_sort_Permutation.
    rewrite <- list_fmap_compose. apply scan_ids_nodup.
  - apply StronglySorted_merge_sort; apply _.
Qed.

(** * The dashboard charts *)

Section chart_facts.
Variable strftime_month : string → option string.

Lemma joined_items_counted (label g : string) (m : list (Z * item_row)) :
  length (filter (λ np : string * option Z, np.1 = g ∧ is_Some np.2)
            ((λ i : Z * item_row, (label, Some i.1)) <$> m))
  = if decide (label = g) then length m else 0%nat.
Proof.
  induction m as [|j m IH]; [by case_decide|]. rewrite fmap_cons.
  rewrite filter_cons. cbn [length fst snd].
  repeat case_decide; cbn [length]; rewrite ?IH;
    repeat case_decide; try done; destruct_and?; try done.
  exfalso. eauto.
Qed.

Lemma joined_rows_counted db (l : list (Z * category_row)) g :
  length (filter (λ np : string * option Z, np.1 = g ∧ is_Some np.2)
            (l ≫= λ c,
               match filter (λ i : Z * item_row, category_id i.2 = c.1)
                       (scan (inventory_items db)) with
               | [] => [(cat_name c.2, None)]
               | matched => (λ i, (cat_name c.2, Some i.1)) <$> matched
               end))
  = foldr (λ c acc, (if decide (cat_name c.2 = g) then items_in db c.1
                     else 0%nat) + acc)%nat 0%nat l.
Proof.
  induction l as [|c l IH]; [done|]. rewrite bind_cons.
  rewrite filter_app, length_app, IH. cbn [foldr]. f_equal. unfold items_in.
  destruct (filter _ (scan (inventory_items db))) as [|i matched].
  - rewrite filter_cons. simpl.
    repeat case_decide; try done; destruct_and?;
      by match goal with H : is_Some None |- _ => destruct H end.
  - apply joined_items_counted.
Qed.

Lemma one_category_counted db (l : list (Z * category_row)) k c :
  NoDup (fst <$> l) → (k, c) ∈ l →
  (∀ k' c', (k', c') ∈ l → cat_name c' = cat_name c → k' = k) →
  foldr (λ c' acc, (if decide (cat_name c'.2 = cat_name c)
                    then items_in db c'.1 else 0%nat) + acc)%nat 0%nat l
  = items_in db k.
Proof.
  induction l as [|[k' c'] l IH]; intros Hnodup Hin Huniq.
  - by apply elem_of_nil in Hin.
  - csimpl in *. apply NoDup_cons in Hnodup as [Hk' Hnodup].
    case_decide as Hname.
    + assert (k' = k) as -> by (apply (Huniq k' c'); [left|done]).
      assert (foldr (λ c' acc, (if decide (cat_name c'.2 = cat_name c)
                                then items_in db c'.1 else 0%nat) + acc)%nat
                0%nat l = 0%nat) as ->; [|lia].
      clear IH Hin. induction l as [|[k2 c2] l IHl]; [done|]. csimpl in *.
      apply not_elem_of_cons in Hk' as [Hne Hk'].
      apply NoDup_cons in Hnodup as [_ Hnodup].
      case_decide as Hname2.
      * destruct Hne. symmetry. apply (Huniq k2 c2); [right; left|done].
      * rewrite IHl; [done|done|done|].
        intros k3 c3 Hin3. apply Huniq.
        apply elem_of_cons in Hin3 as [->|Hin3]; [left|right; by right].
    + apply elem_of_cons in Hin as [[= -> ->]|Hin]; [done|].
      rewrite IH; [done|done|done|].
      intros k3 c3 Hin3. apply Huniq. by right.
Qed.

(** X19.  With category names unique, as the handlers keep them, the
    category distribution has one row for every stored category, the
    categories without items included, and no other row; a category's row
    counts the stored items that carry its id. *)
Theorem category_distribution_counts db :
  unique_on cat_name (categories db) →
  let chart := category_distribution (get_dashboard_charts strftime_month db) in
  (∀ k c, rows (categories db) !! k = Some c →
          CategoryCount (cat_name c) (Z.of_nat (items_in db k)) ∈ chart)
  ∧ (∀ row, row ∈ chart →
            ∃ k c, rows (categories db) !! k = Some c
                   ∧ row = CategoryCount (cat_name c)
                             (Z.of_nat (items_in db k)))
  ∧ NoDup (counted <$> chart).
Proof.
  intros Huniq chart. subst chart.
  unfold get_dashboard_charts, distribution, categories_with_items, count.
  cbn [category_distribution]. cbv zeta.
  set (joined := scan (categories db) ≫= _).
  assert (∀ g, g ∈ fst <$> joined
               ↔ ∃ k c, rows (categories db) !! k = Some c ∧ cat_name c = g)
    as Hnames.
  { intros g. subst joined. rewrite list_elem_of_fmap. split.
    - intros ([g' o] & -> & Hin). apply list_elem_of_bind in Hin
        as ([k c] & Hin & Hc%scan_lists). exists k, c. split; [done|].
      cbn [fst snd] in Hin.
      destruct (filter _ (scan (inventory_items db))) as [|i m].
      + apply list_elem_of_singleton in Hin. by injection Hin as <- _.
      + apply list_elem_of_fmap in Hin as (j & Hj & _).
        by injection Hj as <- _.
    - intros (k & c & Hk & <-).
      destruct (filter (λ i : Z * item_row, category_id i.2 = k)
                  (scan (inventory_items db))) as [|i m] eqn:Hm.
      + exists (cat_name c, None). split; [done|].
        apply list_elem_of_bind. exists (k, c). simpl. rewrite Hm.
        split; [by left|by apply scan_lists].
      + exists (cat_name c, Some i.1). split; [done|].
        apply list_elem_of_bind. exists (k, c). simpl. rewrite Hm.
        split; [by left|by apply scan_lists]. }
  assert (∀ k c, rows (categories db) !! k = Some c →
                 length (filter (λ np : string * option Z,
                                   np.1 = cat_name c ∧ is_Some np.2) joined)
                 = items_in db k) as Hcount.
  { intros k c Hk. subst joined. rewrite joined_rows_counted.
    apply one_category_counted.
    - apply scan_ids_nodup.
    - by apply scan_lists.
    - intros k' c' Hin%scan_lists Hname. by apply (Huniq k' k c' c). }
  split_and!.
  - intros k c Hk. apply list_elem_of_fmap. exists (cat_name c).
    split; [by rewrite (Hcount k c Hk)|].
    apply elem_of_remove_dups, Hnames. eauto.
  - intros row (g & -> & Hg)%list_elem_of_fmap.
    apply elem_of_remove_dups, Hnames in Hg as (k & c & Hk & <-).
    exists k, c. split; [done|]. by rewrite (Hcount k c Hk).
  - rewrite <- list_fmap_compose, fmap_unchanged by done.
    apply NoDup_remove_dups.
Qed.
End chart_facts.

Lemma category_distribution_counts_witness :
  let chart :=
    category_distribution
      (get_dashboard_charts (λ stamp, Some (String.substring 0 7 stamp)) with_ink) in
  CategoryCount "Paper" 0 ∈ chart ∧ CategoryCount "Ink" 1 ∈ chart.
Proof.
  intros chart.
  destruct (category_distribution_counts
              (λ stamp, Some (String.substring 0 7 stamp)) with_ink)
    as (Hlisted & _ & _).
  - apply reachable_unique_keys. do 3 apply reachable_run.
    apply reachable_empty.
  - split.
    + apply (Hlisted 2 (CategoryRow "Paper"
                          (Some "Printing paper and materials") jan1)).
      by vm_compute.
    + apply (Hlisted 3 (CategoryRow "Ink" (Some "Ink cartridges") jan1)).
      by vm_compute.
Defined.

#[global] Instance latest_month_total : Total latest_month.
Proof.
  intros a b. unfold latest_month.
  destruct (month a) as [x|], (month b) as [y|]; auto.
  destruct (String.leb_total x y); auto.
Qed.

#[global] Instance latest_month_trans : Transitive latest_month.
Proof.
  intros a b c. unfold latest_month.
  destruct (month a) as [x|], (month b) as [y|], (month c) as [z|];
    try done.
  intros Hab Hbc. by apply (string_leb_trans z y x).
Qed.



(** * The set-up script *)

Lemma taken_insert {A} (col : A → string) v r (t : table A) :
  taken col v (insert_row r t).1 = bool_decide (col r = v) || taken col v t.
Proof.
  apply eq_true_iff_eq. rewrite orb_true_iff, bool_decide_eq_true.
  rewrite !taken_spec. simpl. split.
  - intros (k & r' & Hk & Hv).
    destruct (decide (k = next_rowid t)) as [->|Hne].
    + rewrite lookup_insert_eq in Hk. injection Hk as <-. by left.
    + rewrite lookup_insert_ne in Hk by done. right. eauto.
  - intros [Hv|(k & r' & Hk & Hv)].
    + exists (next_rowid t), r. split; [apply lookup_insert_eq|done].
    + exists k, r'. split; [|done]. rewrite lookup_insert_ne; [done|].
      intros <-. by rewrite next_rowid_fresh in Hk.
Qed.

Lemma same_taken_insert {A} (col : A → string) r1 r2 (t1 t2 : table A) :
  col r1 = col r2 → same_taken col t1 t2 →
  same_taken col (insert_row r1 t1).1 (insert_row r2 t2).1.
Proof. intros Hcol Hsame v. by rewrite !taken_insert, Hcol, Hsame. Qed.

Lemma seed_statements_key_driven : Forall key_driven seed_statements.
Proof.
  unfold seed_statements. repeat (apply Forall_app; split);
    apply Forall_fmap, Forall_forall;
    intros x _ now1 now2 db1 db2 (Hu & He & Hl & Hc & Hi & Hp); simpl;
    unfold insert_user, insert_category, insert_location, insert_printer,
      insert_seed_item, insert_transaction;
    try destruct x as [[i printer] status];
    rewrite ?(Hu _), ?(He _), ?(Hl _), ?(Hc _), ?(Hi _), ?(Hp _);
    repeat match goal with
      | |- context [taken ?c ?v ?t] => destruct (taken c v t)
      end; simpl; try done;
    unfold same_keys; simpl; split_and!; try done;
    by apply same_taken_insert.
Qed.

Lemma execute_all_key_driven clock1 clock2 n1 n2 stmts db1 db2 :
  Forall key_driven stmts → same_keys db1 db2 →
  match execute_all clock1 n1 stmts db1, execute_all clock2 n2 stmts db2 with
  | Done a, Done b => same_keys a b
  | Raise _, Raise _ => True
  | _, _ => False
  end.
Proof.
  intros Hall. revert n1 n2 db1 db2.
  induction Hall as [|stmt stmts Hstmt _ IH]; intros n1 n2 db1 db2 Hsame;
    [done|]. simpl.
  specialize (Hstmt (clock1 n1) (clock2 n2) db1 db2 Hsame).
  destruct (stmt (clock1 n1) db1), (stmt (clock2 n2) db2); try done.
  by apply IH.
Qed.

Lemma same_keys_refl db : same_keys db db.
Proof. by repeat split. Qed.

Lemma seed_statements_keep_users : Forall keeps_users seed_statements.
Proof.
  unfold seed_statements. repeat (apply Forall_app; split);
    apply Forall_fmap, Forall_forall; intros x _ now db db1 v Hdone Hv;
    simpl in Hdone;
    unfold insert_user, insert_category, insert_location, insert_printer,
      insert_seed_item, insert_transaction in Hdone;
    try destruct x as [[i printer] status];
    repeat match type of Hdone with
      | context [taken ?c ?w ?t] => destruct (taken c w t)
      end; simpl in Hdone; try done;
    injection Hdone as <-; simpl; try done.
  apply taken_spec in Hv as (k & r & Hk & Hr). apply taken_spec.
  exists k, r. split; [|done]. simpl.
  rewrite lookup_insert_ne; [done|]. intros <-.
  by rewrite next_rowid_fresh in Hk.
Qed.

Lemma execute_all_keeps_users clock n stmts db db1 v :
  Forall keeps_users stmts →
  execute_all clock n stmts db = Done db1 →
  taken username v (users db) = true → taken username v (users db1) = true.
Proof.
  intros Hall. revert n db.
  induction Hall as [|stmt stmts Hstmt _ IH]; intros n db; simpl.
  - by intros [= <-].
  - destruct (stmt (clock n) db) as [db2|e] eqn:Hrun; [|done].
    intros Hrest Hv. apply (IH (S n) db2 Hrest).
    by apply (Hstmt (clock n) db db2 v).
Qed.

Lemma seed_statements_add : Forall2 adds seed_statements seed_increments.
Proof.
  unfold seed_statements, seed_increments, seed_users, seed_categories,
    seed_locations, seed_printers, seed_items, seed_transactions.
  simpl. repeat constructor; intros now db db1 Hdone; simpl in Hdone;
    unfold insert_user, insert_category, insert_location, insert_printer,
      insert_seed_item, insert_transaction in Hdone;
    repeat match type of Hdone with
      | context [taken ?c ?w ?t] => destruct (taken c w t)
      end; simpl in Hdone; try done;
    injection Hdone as <-; unfold sizes, scan; simpl;
    rewrite scan_length_insert by apply next_rowid_fresh;
    repeat f_equal; lia.
Qed.

Lemma execute_all_sizes clock n stmts es db db1 :
  Forall2 adds stmts es →
  execute_all clock n stmts db = Done db1 →
  sizes db1 = foldl (zip_with Nat.add) (sizes db) es.
Proof.
  intros Hall. revert n db.
  induction Hall as [|stmt e stmts es Hstmt _ IH]; intros n db; simpl.
  - by intros [= <-].
  - destruct (stmt (clock n) db) as [db2|err] eqn:Hrun; [|done].
    intros Hrest. rewrite (IH _ _ Hrest). f_equal. by apply (Hstmt (clock n)).
Qed.

(** The first statement of the seed inserts the user "admin". *)
Lemma seed_statements_first :
  ∃ rest,
    seed_statements
    = (λ now db,
         forget_rowid
           (insert_user now
              (UserRegister.Make "admin" "admin123" "admin@ims.com" "Admin")
              db)) :: rest
    ∧ Forall keeps_users rest.
Proof.
  eexists. split; [reflexivity|].
  pose proof seed_statements_keep_users as Hall.
  by apply Forall_cons in Hall as [_ Hall].
Qed.

(** X21.  The set-up script seeds all or nothing: it either leaves the
    stored state exactly as it found it (some seed key was already taken)
    or adds every seed row: 2 users, 4 categories, 4 locations, 6 printers,
    8 items and 5 transactions. *)
Theorem setup_is_all_or_nothing clock db :
  setup_database clock db = db
  ∨ sizes (setup_database clock db)
    = zip_with Nat.add (sizes db) [2; 4; 4; 6; 8; 5]%nat.
Proof.
  unfold setup_database.
  destruct (execute_all clock 0 seed_statements db) as [seeded|e] eqn:Hrun;
    [right|by left].
  rewrite (execute_all_sizes _ _ _ _ _ _ seed_statements_add Hrun).
  unfold sizes.
  repeat match goal with
    | |- context [length ?l] => generalize (length l); intro
    end.
  cbv [foldl seed_increments replicate app zip_with].
  repeat match goal with
    | |- _ :: _ = _ :: _ => apply (f_equal2 cons); [lia|]
    end.
  reflexivity.
Qed.

(** X22.  Running the set-up script again changes nothing, whenever it is
    run: a second run finds the state the first one left, seeded or not,
    and leaves it as it is. *)
Theorem setup_twice_is_setup_once clock clock' db :
  setup_database clock' (setup_database clock db) = setup_database clock db.
Proof.
  unfold setup_database at 2 3.
  destruct (execute_all clock 0 seed_statements db) as [seeded|e] eqn:Hrun.
  - unfold setup_database.
    destruct (execute_all clock' 0 seed_statements seeded) as [again|e]
      eqn:Hagain; [|done].
    exfalso. destruct seed_statements_first as (rest & Hfirst & Hkeep).
    rewrite Hfirst in Hrun, Hagain. cbn [execute_all] in Hrun, Hagain.
    assert (taken username "admin" (users seeded) = true) as Htaken.
    { destruct (insert_user (clock 0%nat) _ db) as [[db1 k]|err] eqn:Hins;
        [|done].
      cbn [forget_rowid] in Hrun.
      apply (execute_all_keeps_users clock 1 rest db1 seeded "admin" Hkeep
               Hrun).
      unfold insert_user in Hins.
      destruct (taken username _ (users db)); [done|].
      destruct (taken email _ (users db)); [done|].
      injection Hins as <- _. apply taken_spec. eexists _, _.
      split; [apply lookup_insert_eq|done]. }
    unfold insert_user in Hagain. cbn [UserRegister.username] in Hagain.
    by rewrite Htaken in Hagain.
  - unfold setup_database.
    pose proof (execute_all_key_driven clock clock' 0 0 seed_statements db db
                  seed_statements_key_driven (same_keys_refl db)) as Hsame.
    rewrite Hrun in Hsame.
    by destruct (execute_all clock' 0 seed_statements db).
Qed.

(** * Creating, selling and the listings *)

Lemma low_stock_lists db d :
  d ∈ get_low_stock_report db
  ↔ ∃ k r, rows (inventory_items db) !! k = Some r
           ∧ quantity r < min_stock r ∧ d = join_item db (k, r).
Proof.
  unfold get_low_stock_report.
  rewrite list_elem_of_merge_sort, list_elem_of_fmap. split.
  - intros [[k r] [-> Hin]]. apply list_elem_of_filter in Hin as [Hlow Hin].
    apply scan_lists in Hin. eauto.
  - intros (k & r & Hk & Hlow & ->). exists (k, r). split; [done|].
    apply list_elem_of_filter. split; [done|]. by apply scan_lists.
Qed.

(** X23.  What [create_inventory_item] returns is what the listings show
    from then on: [get_inventory] gains exactly that entry, with no printer,
    and the low-stock report lists it exactly when the created quantity is
    under the created threshold. *)
Theorem new_item_is_listed now i db d :
  (create_inventory_item now i db).2 = Return d →
  let db' := (create_inventory_item now i db).1 in
  InventoryDict d None ∈ get_inventory db'
  ∧ length (get_inventory db') = S (length (get_inventory db))
  ∧ (d ∈ get_low_stock_report db'
     ↔ InventoryItemCreate.quantity i < InventoryItemCreate.min_stock i).
Proof.
  destruct (taken sku (InventoryItemCreate.sku i) (inventory_items db))
    eqn:Htaken; [by rewrite create_inventory_item_conflict|].
  rewrite create_inventory_item_fresh by done. simpl. intros [= <-].
  set (row := stored i _ now). set (k := next_rowid (inventory_items db)).
  set (db' := set_inventory_items _ db).
  assert (rows (inventory_items db') !! k = Some row) as Hk
    by apply lookup_insert_eq.
  split_and!.
  - apply get_inventory_lists. exists k, row. split; [done|].
    unfold join_printer. by f_equal.
  - unfold get_inventory. rewrite !merge_sort_Permutation, !length_fmap.
    apply scan_length_insert, next_rowid_fresh.
  - rewrite low_stock_lists. split.
    + intros (k' & r' & Hk' & Hlow & Heq).
      assert (k' = k) as -> by (by injection Heq).
      rewrite Hk in Hk'. by injection Hk' as <-.
    + intros Hlow. by exists k, row.
Qed.

Lemma new_item_is_listed_witness :
  let created := create_inventory_item jan2 ink with_toner in
  ∃ d, created.2 = Return d ∧ d ∈ get_low_stock_report created.1.
Proof.
  intros created.
  exists (join_item created.1 (2, stored ink "Low Stock" jan2)).
  assert (created.2
          = Return (join_item created.1 (2, stored ink "Low Stock" jan2)))
    as Hd by (by vm_compute).
  split; [exact Hd|].
  destruct (new_item_is_listed jan2 ink with_toner _ Hd) as (_ & _ & Hlow).
  apply Hlow. simpl. lia.
Defined.

(** X24.  In every state reached from the empty one the ids in use are
    positive and at most the sequence counter, and a create that returns
    was given the counter plus one: ids count up, one by one. *)
Theorem item_ids_count_up db :
  reachable db →
  (∀ k r, rows (inventory_items db) !! k = Some r →
          0 < k ≤ seq (inventory_items db))
  ∧ (∀ now i d,
       (create_inventory_item now i db).2 = Return d →
       id d = seq (inventory_items db) + 1).
Proof.
  intros (_ & _ & _ & Hitems & _)%reachable_all_issued. split.
  - apply Hitems.
  - intros now i d [-> _]%create_inventory_item_returned.
    by apply issued_next.
Qed.

Lemma item_ids_count_up_witness :
  let created := create_inventory_item jan3 ink with_toner in
  ∃ d, created.2 = Return d ∧ id d = seq (inventory_items with_toner) + 1.
Proof.
  intros created.
  exists (join_item created.1 (2, stored ink "Low Stock" jan3)).
  assert (created.2
          = Return (join_item created.1 (2, stored ink "Low Stock" jan3)))
    as Hd by (by vm_compute).
  split; [exact Hd|].
  destruct (item_ids_count_up with_toner) as [_ Hnext].
  - do 2 apply reachable_run. apply reachable_empty.
  - exact (Hnext jan3 ink _ Hd).
Defined.


